(** * Session coordinator (AuthContext) and route guard of meu-evento-catolico

    A shallow embedding of [src/contexts/AuthContext.tsx] (the text that
    follows the registration page in [src/src/pages/Register.tsx]) and of the
    route table of [App.tsx].

    - JavaScript objects (the [User] held in React state, the Firestore
      document data) are finite maps from field names to values, so that the
      object spread [{id, email, ...userDoc.data()}] is a map union.
    - The [async] functions are programs over the effects they perform
      (Firebase calls, React state setters, [console.error]); [try]/[catch]/
      [finally] are functions on programs.
    - [exec] runs one call to completion against the outcomes of its awaits;
      [step] is the event loop, where several calls are in flight and their
      awaits settle in any order. *)

From stdpp Require Import gmap strings list fin_maps.

Open Scope string_scope.

(** ** Data *)

(** The field values that occur: strings and [null] ([firebaseUser.email!]
    only silences the type checker, a [null] email stays [null]). *)
Inductive JsValue : Type :=
| VNull
| VStr (s : string).


(** A JavaScript object with string keys. *)
Abbreviation JsObject := (gmap string JsValue).

(** [FirebaseUser], the three properties the coordinator reads. *)
Record FirebaseUser : Type := {
  uid : string;
  email : option string;
  displayName : option string
}.

(** What a [catch] clause may receive: an instance of [Error], with or without
    a [code] property (a [FirebaseError] has one), or any other value, which
    may have a [code] property as well. *)
Inductive thrown : Type :=
| ErrorObj (code : option string) (message : string)
| NonError (code : option string) (v : string).


(** [new Error(message)] *)
Definition new_Error (message : string) : thrown := ErrorObj None message.

(** The React state of [AuthProvider] ([user], [isLoading]), the [users]
    collection of Firestore, the console and the clock read by [new Date()]. *)
Record world : Type := {
  user : option JsObject;
  isLoading : bool;
  users : gmap string JsObject;
  console : list (string * thrown);
  clock : string
}.

(** [useState<User | null>(null)], [useState(true)] *)
Definition initial (store : gmap string JsObject) (now : string) : world :=
  {| user := None; isLoading := true; users := store; console := []; clock := now |}.

(** The context value built on every render. *)
Record AuthContextType : Type := {
  ctx_user : option JsObject;
  isAuthenticated : bool;
  ctx_isLoading : bool
}.

(** [!!user]: [null] is falsy, every object is truthy. *)
Definition truthy (u : option JsObject) : bool :=
  match u with
  | None => false
  | Some _ => true
  end.

Definition value (w : world) : AuthContextType :=
  {| ctx_user := user w; isAuthenticated := truthy (user w); ctx_isLoading := isLoading w |}.

(** ** getErrorMessage *)

Definition getErrorMessage (code : string) : string :=
  if String.eqb code "auth/invalid-email" then "Email inválido"
  else if String.eqb code "auth/user-disabled" then "Usuário desativado"
  else if String.eqb code "auth/user-not-found" then "Usuário não encontrado"
  else if String.eqb code "auth/wrong-password" then "Senha incorreta"
  else if String.eqb code "auth/too-many-requests" then "Muitas tentativas. Tente novamente mais tarde"
  else if String.eqb code "auth/network-request-failed" then "Erro de conexão. Verifique sua internet"
  else if String.eqb code "auth/internal-error" then "Erro interno. Tente novamente"
  else "Erro ao fazer login. Tente novamente".

(** ** Effects and programs *)

(** The calls the coordinator makes.  The first four are awaited. *)
Inductive Eff : Type -> Type :=
| signInWithEmailAndPassword (email password : string) : Eff FirebaseUser
| getDoc (uid : string) : Eff (option JsObject)
| setDoc_merge (uid : string) (data : JsObject) : Eff unit
| firebaseSignOut : Eff unit
| setUser (u : option JsObject) : Eff unit
| setIsLoading (b : bool) : Eff unit
| console_error (msg : string) (e : thrown) : Eff unit
| Date_toISOString : Eff string.

Definition is_async {X} (eff : Eff X) : bool :=
  match eff with
  | signInWithEmailAndPassword _ _ | getDoc _ | setDoc_merge _ _ | firebaseSignOut => true
  | _ => false
  end.

(** A program performs an effect and continues with its answer ([inl e]: the
    promise was rejected with [e]), returns, or throws. *)
Inductive Prog (A : Type) : Type :=
| Ret (a : A)
| Throw (e : thrown)
| Do {X : Type} (eff : Eff X) (k : thrown + X -> Prog A).

Arguments Ret {A} a.
Arguments Throw {A} e.
Arguments Do {A X} eff k.

(** [await eff]: a rejection is thrown at the await. *)
Definition call {X} (eff : Eff X) : Prog X :=
  Do eff (fun r => match r with inl e => Throw e | inr x => Ret x end).

Fixpoint bind {A B} (p : Prog A) (f : A -> Prog B) : Prog B :=
  match p with
  | Ret a => f a
  | Throw e => Throw e
  | Do eff k => Do eff (fun r => bind (k r) f)
  end.

(** [try { p } catch (error) { h error }] *)
Fixpoint try_catch {A} (p : Prog A) (h : thrown -> Prog A) : Prog A :=
  match p with
  | Ret a => Ret a
  | Throw e => h e
  | Do eff k => Do eff (fun r => try_catch (k r) h)
  end.

(** [try { p } finally { f }] *)
Fixpoint try_finally {A} (p : Prog A) (f : Prog unit) : Prog A :=
  match p with
  | Ret a => bind f (fun _ => Ret a)
  | Throw e => bind f (fun _ => Throw e)
  | Do eff k => Do eff (fun r => try_finally (k r) f)
  end.

Notation "'let!' x ':=' p 'in' q" := (bind p (fun x => q))
  (at level 10, x name, p at level 100, q at level 200, only parsing).
Notation "'do!' p 'in' q" := (bind p (fun _ => q))
  (at level 10, p at level 100, q at level 200, only parsing).

(** ** The coordinator's code *)

(** A [string | null] property as a field value. *)
Definition nullable (o : option string) : JsValue :=
  match o with
  | Some s => VStr s
  | None => VNull
  end.

(** [o || d] for [o : string | null]: [null] and the empty string are falsy. *)
Definition or_default (o : option string) (d : string) : string :=
  match o with
  | Some s => if String.eqb s "" then d else s
  | None => d
  end.

(** The object literal of [createUserDocument]. *)
Definition basicUser (firebaseUser : FirebaseUser) (createdAt : string) : JsObject :=
  list_to_map [
    ("id", VStr (uid firebaseUser));
    ("email", nullable (email firebaseUser));
    ("name", VStr (or_default (displayName firebaseUser) "Usuário"));
    ("role", VStr "usuario");
    ("phone", VStr "");
    ("location", VStr "");
    ("createdAt", VStr createdAt);
    ("status", VStr "ativo");
    ("password", VStr "")
  ].

Definition createUserDocument (firebaseUser : FirebaseUser) : Prog JsObject :=
  let! createdAt := call Date_toISOString in
  let basicUser := basicUser firebaseUser createdAt in
  try_catch
    (do! call (setDoc_merge (uid firebaseUser) basicUser) in
     Ret basicUser)
    (fun error =>
       do! call (console_error "Error creating user document:" error) in
       Throw error).

(** [{ id: firebaseUser.uid, email: firebaseUser.email!, ...data }]: the
    spread comes last, so a field of [data] replaces an earlier one of the
    same name ([∪] on maps prefers its left operand). *)
Definition spread_user (firebaseUser : FirebaseUser) (data : JsObject) : JsObject :=
  data ∪ list_to_map [("id", VStr (uid firebaseUser)); ("email", nullable (email firebaseUser))].

(** The [try]/[catch] of the callback given to [onAuthStateChanged]. *)
Definition resolve_profile (firebaseUser : option FirebaseUser) : Prog unit :=
  try_catch
    match firebaseUser with
    | Some firebaseUser =>
        let! userDoc := call (getDoc (uid firebaseUser)) in
        match userDoc with
        | Some data => call (setUser (Some (spread_user firebaseUser data)))
        | None =>
            let! newUser := createUserDocument firebaseUser in
            call (setUser (Some newUser))
        end
    | None => call (setUser None)
    end
    (fun error =>
       do! call (console_error "Error in auth state change:" error) in
       call (setUser None)).

(** The callback given to [onAuthStateChanged]: the above, and its [finally]. *)
Definition onAuthStateChanged (firebaseUser : option FirebaseUser) : Prog unit :=
  try_finally (resolve_profile firebaseUser) (call (setIsLoading false)).

(** [error instanceof Error && 'code' in error] *)
Definition rethrow_login (error : thrown) : thrown :=
  match error with
  | ErrorObj (Some code) _ => new_Error (getErrorMessage code)
  | _ => error
  end.

Definition login (email password : string) : Prog unit :=
  try_catch
    (let! userCredential := call (signInWithEmailAndPassword email password) in
     let! userDoc := call (getDoc (uid userCredential)) in
     match userDoc with
     | None =>
         let! newUser := createUserDocument userCredential in
         call (setUser (Some newUser))
     | Some data => call (setUser (Some (spread_user userCredential data)))
     end)
    (fun error =>
       do! call (console_error "Login error:" error) in
       Throw (rethrow_login error)).

Definition logout : Prog unit :=
  try_catch
    (do! call firebaseSignOut in
     call (setUser None))
    (fun error =>
       do! call (console_error "Logout error:" error) in
       Throw (new_Error "Erro ao fazer logout. Tente novamente")).

(** ** Running the code *)

Definition with_user (u : option JsObject) (w : world) : world :=
  {| user := u; isLoading := isLoading w; users := users w;
     console := console w; clock := clock w |}.

Definition with_isLoading (b : bool) (w : world) : world :=
  {| user := user w; isLoading := b; users := users w;
     console := console w; clock := clock w |}.

Definition with_users (store : gmap string JsObject) (w : world) : world :=
  {| user := user w; isLoading := isLoading w; users := store;
     console := console w; clock := clock w |}.

Definition with_console (c : list (string * thrown)) (w : world) : world :=
  {| user := user w; isLoading := isLoading w; users := users w;
     console := c; clock := clock w |}.

Definition with_clock (t : string) (w : world) : world :=
  {| user := user w; isLoading := isLoading w; users := users w;
     console := console w; clock := t |}.

(** [setDoc(ref, data, { merge: true })]: the fields of [data] are written
    over those of the document at [key], the other fields stay. *)
Definition upsert (key : string) (data : JsObject) (store : gmap string JsObject)
  : gmap string JsObject :=
  <[key := data ∪ default ∅ (store !! key)]> store.

Section Coordinator.

(** The identity provider's answer to a pair of credentials. *)
Variable verifyCredentials : string -> string -> thrown + FirebaseUser.

(** One effect.  [failure = Some e]: the awaited promise is rejected with [e]
    (the request is lost, the store refuses); the state setters, the console
    and the clock do not fail. *)
Definition perform {X} (eff : Eff X) (w : world) (failure : option thrown)
  : world * (thrown + X) :=
  match eff in Eff X return world * (thrown + X) with
  | signInWithEmailAndPassword email password =>
      (w, match failure with Some e => inl e | None => verifyCredentials email password end)
  | getDoc key =>
      (w, match failure with Some e => inl e | None => inr (users w !! key) end)
  | setDoc_merge key data =>
      match failure with
      | Some e => (w, inl e)
      | None => (with_users (upsert key data (users w)) w, inr tt)
      end
  | firebaseSignOut =>
      (w, match failure with Some e => inl e | None => inr tt end)
  | setUser u => (with_user u w, inr tt)
  | setIsLoading b => (with_isLoading b w, inr tt)
  | console_error msg e => (with_console (console w ++ [(msg, e)]) w, inr tt)
  | Date_toISOString => (w, inr (clock w))
  end.

(** A whole call, nothing else running meanwhile: the [n]-th await settles
    with the [n]-th outcome of [outcomes] ([None], and past the end of the
    list: it is fulfilled). *)
Fixpoint exec {A} (p : Prog A) (w : world) (outcomes : list (option thrown))
  : world * (thrown + A) :=
  match p with
  | Ret a => (w, inr a)
  | Throw e => (w, inl e)
  | Do eff k =>
      if is_async eff
      then let '(w', r) := perform eff w (mjoin (head outcomes)) in
           exec (k r) w' (tail outcomes)
      else let '(w', r) := perform eff w None in
           exec (k r) w' outcomes
  end.

(** Run up to the next await (or to the end). *)
Fixpoint advance {A} (p : Prog A) (w : world) : world * Prog A :=
  match p with
  | Do eff k =>
      if is_async eff then (w, p)
      else let '(w', r) := perform eff w None in advance (k r) w'
  | _ => (w, p)
  end.

(** *** The event loop *)

(** Who started a call: the provider, through the listener, or a caller of
    [login] or [logout]. *)
Inductive origin : Type := Listener | LoginCall | LogoutCall.

(** The state, the calls suspended at an await, and how the finished calls
    ended, oldest first. *)
Record machine : Type := {
  state : world;
  pending : list (origin * Prog unit);
  finished : list (origin * (thrown + unit))
}.

Definition boot (store : gmap string JsObject) (now : string) : machine :=
  {| state := initial store now; pending := []; finished := [] |}.

Inductive label : Type :=
| AuthStateChanged (firebaseUser : option FirebaseUser)
| CallLogin (email password : string)
| CallLogout
| Settle (task : nat) (failure : option thrown)
| AdminWrite (key : string) (data : JsObject)
| Tick (now : string).

(** A call has run to [p] in state [w]: it is done, or waits in slot [slot]
    ([None]: a new slot at the end). *)
Definition park (o : origin) (slot : option nat) (w : world) (p : Prog unit) (m : machine)
  : machine :=
  match p with
  | Ret a =>
      {| state := w;
         pending := from_option (fun i => delete i (pending m)) (pending m) slot;
         finished := finished m ++ [(o, inr a)] |}
  | Throw e =>
      {| state := w;
         pending := from_option (fun i => delete i (pending m)) (pending m) slot;
         finished := finished m ++ [(o, inl e)] |}
  | Do _ _ =>
      {| state := w;
         pending := match slot with
                    | Some i => <[i := (o, p)]> (pending m)
                    | None => pending m ++ [(o, p)]
                    end;
         finished := finished m |}
  end.

Definition spawn (o : origin) (p : Prog unit) (m : machine) : machine :=
  let '(w, p') := advance p (state m) in park o None w p' m.

Definition settle (task : nat) (failure : option thrown) (m : machine) : machine :=
  match pending m !! task with
  | Some (o, Do eff k) =>
      let '(w, r) := perform eff (state m) failure in
      let '(w', p') := advance (k r) w in
      park o (Some task) w' p' m
  | _ => m
  end.

Definition step (m : machine) (l : label) : machine :=
  match l with
  | AuthStateChanged firebaseUser => spawn Listener (onAuthStateChanged firebaseUser) m
  | CallLogin email password => spawn LoginCall (login email password) m
  | CallLogout => spawn LogoutCall logout m
  | Settle task failure => settle task failure m
  | AdminWrite key data =>
      {| state := with_users (<[key := data]> (users (state m))) (state m);
         pending := pending m; finished := finished m |}
  | Tick now =>
      {| state := with_clock now (state m); pending := pending m; finished := finished m |}
  end.

Definition run (m : machine) (ls : list label) : machine := foldl step m ls.

(** Every state the event loop goes through, the first one included. *)
Fixpoint history (m : machine) (ls : list label) : list machine :=
  match ls with
  | [] => [m]
  | l :: ls => m :: history (step m l) ls
  end.

End Coordinator.

(** ** Properties of programs *)

(** [every_effect φ p]: each effect [p] can perform, on any path, satisfies [φ]. *)
Fixpoint every_effect (φ : forall X, Eff X -> Prop) {A} (p : Prog A) : Prop :=
  match p with
  | Do eff k => φ _ eff /\ forall r, every_effect φ (k r)
  | _ => True
  end.

(** The argument of [setIsLoading], for the effects that are one. *)
Definition loading_arg {X} (eff : Eff X) : option bool :=
  match eff with
  | setIsLoading b => Some b
  | _ => None
  end.

(** [p] never calls [setIsLoading]. *)
Definition untouched {A} (p : Prog A) : Prop :=
  every_effect (fun _ eff => loading_arg eff = None) p.

Definition done {A} (p : Prog A) : bool :=
  match p with
  | Do _ _ => false
  | _ => true
  end.

(** [p] calls [setIsLoading] once on every path, with [false], as the last
    thing it does. *)
Fixpoint unloads_at_end {A} (p : Prog A) : Prop :=
  match p with
  | Do eff k =>
      match loading_arg eff with
      | Some b => b = false /\ forall r, done (k r) = true
      | None => forall r, unloads_at_end (k r)
      end
  | _ => False
  end.

(** A store write carries an empty [password]. *)
Definition blank_password {X} (eff : Eff X) : Prop :=
  match eff with
  | setDoc_merge _ data => data !! "password" = Some (VStr "")
  | _ => True
  end.

Definition is_listener (o : origin) : bool :=
  match o with
  | Listener => true
  | _ => false
  end.

(** Some run of the listener has finished. *)
Definition resolved (m : machine) : bool :=
  existsb (fun entry => is_listener (fst entry)) (finished m).

(** The error codes [getErrorMessage] knows. *)
Definition known_codes : list string :=
  [ "auth/invalid-email"; "auth/user-disabled"; "auth/user-not-found";
    "auth/wrong-password"; "auth/too-many-requests";
    "auth/network-request-failed"; "auth/internal-error" ].


(** What the event loop keeps true of a suspended call: a run of the listener
    still has its [setIsLoading(false)] before it, and nothing else calls
    [setIsLoading]. *)
Definition task_ok (entry : origin * Prog unit) : Prop :=
  match fst entry with
  | Listener => unloads_at_end (snd entry)
  | _ => untouched (snd entry)
  end.

Record loop_inv (m : machine) : Prop := {
  inv_pending : Forall task_ok (pending m);
  inv_loading : isLoading (state m) = negb (resolved m)
}.

(** [isLoading] in every state of a run. *)
Definition loading_trace (idp : string -> string -> thrown + FirebaseUser)
  (m : machine) (ls : list label) : list bool :=
  (fun m => isLoading (state m)) <$> history idp m ls.

(** Resuming a suspended call: its await settles, and it runs on. *)
Definition resume {X} (idp : string -> string -> thrown + FirebaseUser)
  (eff : Eff X) (k : thrown + X -> Prog unit) (w : world) (failure : option thrown)
  : world * Prog unit :=
  let '(w1, r) := perform idp eff w failure in advance idp (k r) w1.

(** ** The route guard *)

Inductive RenderDecision : Type :=
| Suspend
| RedirectToLogin
| RedirectToUnauthorized
| Render.

(** [roles.includes(role)], for a role that may be missing or [null]. *)
Definition includes (roles : list string) (role : option JsValue) : bool :=
  match role with
  | Some (VStr r) => bool_decide (r ∈ roles)
  | _ => false
  end.

(** Modelled from the spec: the component [ProtectedRoute]
    ([components/ProtectedRoute.tsx]), of which the sources have only the
    uses in the route table of [App.tsx].  Section 4.2 of the specification:
    while loading, render nothing; else, when not authenticated, redirect to
    the login view; else, when roles are required and the role of the current
    user is not one of them, redirect to the unauthorized view; else render
    the protected content. *)
Definition guard (loading authenticated : bool) (role : option JsValue)
  (requiredRoles : option (list string)) : RenderDecision :=
  if loading then Suspend
  else if negb authenticated then RedirectToLogin
  else match requiredRoles with
       | Some roles => if includes roles role then Render else RedirectToUnauthorized
       | None => Render
       end.

(** Modelled from the spec: [ProtectedRoute] reads the context value of
    [useAuth()] and decides with [guard]. *)
Definition ProtectedRoute (allowedRoles : option (list string)) (auth : AuthContextType)
  : RenderDecision :=
  guard (ctx_isLoading auth) (isAuthenticated auth)
        (ctx_user auth ≫= lookup "role") allowedRoles.

(** The guarded routes of [App.tsx] and the roles they allow. *)
Definition protected_routes : list (string * option (list string)) :=
  [ ("/app", None);
    ("/app/events/create", Some ["admin"; "organizador"]);
    ("/app/users", Some ["admin"]) ].

(** ** Sample inputs *)

Module Sample.

Definition u123 : FirebaseUser :=
  {| uid := "u123"; email := Some "new@x.com"; displayName := None |}.

(** A provider with one account. *)
Definition provider (email password : string) : thrown + FirebaseUser :=
  if String.eqb email "new@x.com"
  then if String.eqb password "Secret123" then inr u123
       else inl (ErrorObj (Some "auth/wrong-password") "Firebase: Error (auth/wrong-password).")
  else inl (ErrorObj (Some "auth/user-not-found") "Firebase: Error (auth/user-not-found).").

Definition now : string := "2024-03-15T12:00:00.000Z".

(** The document of [u123], written when the account still had its old
    address. *)
Definition stored : JsObject :=
  list_to_map [
    ("id", VStr "u123"); ("email", VStr "old@x.com"); ("name", VStr "Maria Santos");
    ("role", VStr "organizador"); ("phone", VStr "(11) 88888-8888");
    ("location", VStr "Rio de Janeiro, RJ"); ("createdAt", VStr "2024-03-14");
    ("status", VStr "ativo"); ("password", VStr "")
  ].

Definition empty_store : gmap string JsObject := ∅.
Definition store : gmap string JsObject := {[ "u123" := stored ]}.

(** An [Error] without a [code]. *)
Definition plain_error : thrown := ErrorObj None "Failed to fetch".

End Sample.

(** ** More about the coordinator *)

(** The message of [getErrorMessage]'s [default] branch. *)
Definition generic_message : string := "Erro ao fazer login. Tente novamente".

(** The object has the two fields every published profile is given. *)
Definition has_identity (u : JsObject) : Prop :=
  is_Some (u !! "id") /\ is_Some (u !! "email").

(** [setUser] is called with [null] or with an object that has them. *)
Definition publishes_identity {X} (eff : Eff X) : Prop :=
  match eff with
  | setUser (Some u) => has_identity u
  | _ => True
  end.

(** How many awaits a call goes through, against the same outcomes as
    [exec]. *)
Fixpoint awaits {A} (idp : string -> string -> thrown + FirebaseUser)
  (p : Prog A) (w : world) (outcomes : list (option thrown)) : nat :=
  match p with
  | Do eff k =>
      if is_async eff
      then let '(w', r) := perform idp eff w (mjoin (head outcomes)) in
           S (awaits idp (k r) w' (tail outcomes))
      else let '(w', r) := perform idp eff w None in
           awaits idp (k r) w' outcomes
  | _ => 0
  end.

(** The fields [createUserDocument] writes. *)
Definition basicUser_keys : list string :=
  ["id"; "email"; "name"; "role"; "phone"; "location"; "createdAt"; "status"; "password"].

(** What one call does to the store: nothing, or one new document under an id
    that had none. *)
Definition store_step (w w' : world) : Prop :=
  users w' = users w \/
  exists firebaseUser,
    users w !! uid firebaseUser = None /\
    users w' = <[uid firebaseUser := basicUser firebaseUser (clock w)]> (users w).


(** The event loop with a call that has run to [p] in state [w], beside the
    suspended calls [ps]: the call is done, or waits in the last slot. *)
Definition placed (o : origin) (w : world) (p : Prog unit)
  (ps : list (origin * Prog unit)) (fin : list (origin * (thrown + unit))) : machine :=
  match p with
  | Ret a => {| state := w; pending := ps; finished := fin ++ [(o, inr a)] |}
  | Throw e => {| state := w; pending := ps; finished := fin ++ [(o, inl e)] |}
  | Do _ _ => {| state := w; pending := ps ++ [(o, p)]; finished := fin |}
  end.

(** [I] holds of the state, and every suspended call performs effects that
    satisfy [φ] only. *)
Definition kept (φ : forall X, Eff X -> Prop) (I : world -> Prop) (m : machine) : Prop :=
  I (state m) /\ Forall (fun entry => every_effect φ (snd entry)) (pending m).

(** The published user, if any, has [id] and [email]. *)
Definition user_has_identity (w : world) : Prop :=
  match user w with
  | Some u => has_identity u
  | None => True
  end.

(** No run of the listener is suspended or has finished. *)
Definition no_listener (m : machine) : Prop :=
  Forall (fun entry => is_listener (fst entry) = false) (pending m) /\
  Forall (fun entry => is_listener (fst entry) = false) (finished m).

Definition is_provider_event (l : label) : bool :=
  match l with
  | AuthStateChanged _ => true
  | _ => false
  end.

(** ** The users page ([pages/Users.tsx], the text that follows
    [lib/firebase.ts] in [src/src/lib/firebase.ts]) *)

#[global] Instance JsValue_eq_dec : EqDecision JsValue.
Proof. solve_decision. Defined.

Module UsersPage.

Definition mockUsers : list JsObject :=
  [ list_to_map [
      ("id", VStr "1"); ("name", VStr "João Silva"); ("email", VStr "joao@exemplo.com");
      ("password", VStr "senha123"); ("role", VStr "admin");
      ("phone", VStr "(11) 99999-9999"); ("location", VStr "São Paulo, SP");
      ("avatar", VStr "https://images.unsplash.com/photo-1472099645785-5658abf4ff4e?fit=facearea&facepad=2&w=256&h=256&q=80");
      ("createdAt", VStr "2024-03-15"); ("status", VStr "ativo") ];
    list_to_map [
      ("id", VStr "2"); ("name", VStr "Maria Santos"); ("email", VStr "maria@exemplo.com");
      ("password", VStr "senha123"); ("role", VStr "organizador");
      ("phone", VStr "(11) 88888-8888"); ("location", VStr "Rio de Janeiro, RJ");
      ("avatar", VStr "https://images.unsplash.com/photo-1494790108377-be9c29b29330?fit=facearea&facepad=2&w=256&h=256&q=80");
      ("createdAt", VStr "2024-03-14"); ("status", VStr "ativo") ] ].

(** The three pieces of React state of [Users]. *)
Record page : Type := {
  users : list JsObject;
  showForm : bool;
  selectedUser : option JsObject
}.

Definition initial : page :=
  {| users := mockUsers; showForm := false; selectedUser := None |}.

(** The object literal of [handleCreateUser]:
    [{ id, ...formData, createdAt, status, avatar }].  A later property
    replaces an earlier one of the same name, so the three last ones win over
    [formData], and [formData] wins over [id]. *)
Definition newUser (formData : JsObject) (timestamp iso encodedName : string) : JsObject :=
  list_to_map [
    ("createdAt", VStr iso);
    ("status", VStr "ativo");
    ("avatar", VStr ("https://ui-avatars.com/api/?name=" ++ encodedName
                     ++ "&background=random")) ]
  ∪ (formData ∪ {[ "id" := VStr timestamp ]}).

Section Handlers.

(** [encodeURIComponent], applied to whatever [formData.name] is ([None]:
    [undefined]); it throws on a string that is not well formed. *)
Variable encodeURIComponent : option JsValue -> thrown + string.

(** [timestamp] is [Date.now().toString()], [iso] is
    [new Date().toISOString()].  When [encodeURIComponent] throws, no state
    setter has been called. *)
Definition handleCreateUser (formData : JsObject) (timestamp iso : string) (st : page)
  : thrown + page :=
  match encodeURIComponent (formData !! "name") with
  | inl e => inl e
  | inr encodedName =>
      inr {| users := users st ++ [newUser formData timestamp iso encodedName];
             showForm := false;
             selectedUser := selectedUser st |}
  end.

Definition handleEditUser (user : JsObject) (st : page) : page :=
  {| users := users st; showForm := true; selectedUser := Some user |}.

(** [userId] is the value the row passes, [user.id] ([None]: [undefined]);
    [confirmed] is the answer of [window.confirm]. *)
Definition handleDeleteUser (userId : option JsValue) (confirmed : bool) (st : page) : page :=
  if confirmed
  then {| users := filter (fun user => user !! "id" <> userId) (users st);
          showForm := showForm st;
          selectedUser := selectedUser st |}
  else st.

(** The button [Adicionar Usuário]. *)
Definition openForm (st : page) : page :=
  {| users := users st; showForm := true; selectedUser := None |}.

(** [onClose] of the form. *)
Definition closeForm (st : page) : page :=
  {| users := users st; showForm := false; selectedUser := None |}.

(** What the user of the page can do; the form always submits to
    [handleCreateUser]. *)
Inductive action : Type :=
| Add
| Edit (user : JsObject)
| Submit (formData : JsObject) (timestamp iso : string)
| Close
| Delete (userId : option JsValue) (confirmed : bool).

(** An exception in a handler leaves the state as it was. *)
Definition act (st : page) (a : action) : page :=
  match a with
  | Add => openForm st
  | Edit user => handleEditUser user st
  | Submit formData timestamp iso =>
      match handleCreateUser formData timestamp iso st with
      | inr st' => st'
      | inl _ => st
      end
  | Close => closeForm st
  | Delete userId confirmed => handleDeleteUser userId confirmed st
  end.

Definition acts (st : page) (actions : list action) : page := foldl act st actions.

(** The users that the submissions among [actions] build. *)
Definition submitted (actions : list action) : list JsObject :=
  actions ≫= fun a =>
    match a with
    | Submit formData timestamp iso =>
        match encodeURIComponent (formData !! "name") with
        | inr encodedName => [newUser formData timestamp iso encodedName]
        | inl _ => []
        end
    | _ => []
    end.

End Handlers.

(** An encoder for the sample names: as [encodeURIComponent] on [undefined],
    on [null] and on the strings of letters and digits, which it leaves as
    they are. *)
Definition sample_encode (v : option JsValue) : thrown + string :=
  match v with
  | None => inr "undefined"
  | Some VNull => inr "null"
  | Some (VStr s) => inr s
  end.

(** Form data as the user form of the page would give them. *)
Definition sample_formData : JsObject :=
  list_to_map [
    ("name", VStr "Ana"); ("email", VStr "ana@exemplo.com"); ("role", VStr "usuario");
    ("status", VStr "inativo")
  ].

End UsersPage.

(** ** The registration form ([pages/Register.tsx]) *)

Module RegisterForm.

(** A JavaScript string as its UTF-16 code units: [length] and the regular
    expression count those. *)
Abbreviation text := (list N).

Record FormData : Type := {
  name : text;
  email : text;
  password : text;
  confirmPassword : text;
  phone : text;
  location : text
}.

(** [.min(n)] and [.max(n)] of a zod string. *)
Definition min (n : nat) (s : text) : bool := Nat.leb n (length s).
Definition max (n : nat) (s : text) : bool := Nat.leb (length s) n.

(** A piece of a regular expression, matched at the start of [s]: the rests
    of [s] after each way to match, in the order they are tried. *)
Definition matcher : Type := text -> list text.

(** The line terminators, which [.] does not match: LF, CR, LS, PS. *)
Definition is_line_terminator (c : N) : bool :=
  ((c =? 10) || (c =? 13) || (c =? 8232) || (c =? 8233))%N.

(** [.*] *)
Fixpoint dot_star (s : text) : list text :=
  match s with
  | [] => [[]]
  | c :: rest => if is_line_terminator c then [s] else dot_star rest ++ [s]
  end.

(** A character class. *)
Definition class (cls : N -> bool) : matcher :=
  fun s =>
    match s with
    | c :: rest => if cls c then [rest] else []
    | [] => []
    end.

Definition seq (p q : matcher) : matcher := fun s => p s ≫= q.

(** [(?=p)] *)
Definition lookahead (p : matcher) : matcher :=
  fun s =>
    match p s with
    | [] => []
    | _ => [s]
    end.

(** [/^p/.test(s)]: [^] matches at the start only. *)
Definition test (p : matcher) (s : text) : bool :=
  match p s with
  | [] => false
  | _ => true
  end.

(** [[a-z]], [[A-Z]], [\d] *)
Definition lower (c : N) : bool := ((97 <=? c) && (c <=? 122))%N.
Definition upper (c : N) : bool := ((65 <=? c) && (c <=? 90))%N.
Definition digit (c : N) : bool := ((48 <=? c) && (c <=? 57))%N.

(** [/^(?=.*[a-z])(?=.*[A-Z])(?=.*\d)/] *)
Definition password_pattern : matcher :=
  seq (lookahead (seq dot_star (class lower)))
      (seq (lookahead (seq dot_star (class upper)))
           (lookahead (seq dot_star (class digit)))).

(** The code units before the first line terminator. *)
Fixpoint first_line (s : text) : text :=
  match s with
  | [] => []
  | c :: rest => if is_line_terminator c then [] else c :: first_line rest
  end.

Section Schema.

(** The test behind zod's [.email()], which the sources do not contain. *)
Variable email_format : text -> bool.

Definition name_ok (s : text) : bool := min 2 s && max 50 s.
Definition email_ok (s : text) : bool := email_format s && min 5 s && max 50 s.
Definition password_ok (s : text) : bool := min 8 s && max 50 s && test password_pattern s.
Definition phone_ok (s : text) : bool := min 10 s && max 15 s.
Definition location_ok (s : text) : bool := min 2 s && max 100 s.

(** The object schema with its [refine]: the data the form accepts. *)
Definition schema_ok (data : FormData) : bool :=
  name_ok (name data) && email_ok (email data) && password_ok (password data)
  && phone_ok (phone data) && location_ok (location data)
  && bool_decide (password data = confirmPassword data).

End Schema.

End RegisterForm.


(** ** More sample inputs *)

Module Principals.

(** A principal with a display name, and one with an empty display name and
    no address. *)
Definition maria : FirebaseUser :=
  {| uid := "u456"; email := Some "maria@exemplo.com"; displayName := Some "Maria Santos" |}.

Definition nameless : FirebaseUser :=
  {| uid := "u789"; email := None; displayName := Some "" |}.

(** A provider that knows [maria] and answers every other address with
    [nameless]. *)
Definition provider (email password : string) : thrown + FirebaseUser :=
  if String.eqb email "maria@exemplo.com"
  then if String.eqb password "Segredo123" then inr maria
       else inl (ErrorObj (Some "auth/wrong-password") "Firebase: Error (auth/wrong-password).")
  else inr nameless.

(** A session in which a user is published and the application still loads,
    with a console that has an entry, over an empty store. *)
Definition signed_in : world :=
  {| user := Some Sample.stored; isLoading := true; users := ∅;
     console := [("Login error:", Sample.plain_error)]; clock := Sample.now |}.

End Principals.

(** A store write is the profile of a principal, under the principal's id. *)
Definition writes_profile {X} (eff : Eff X) : Prop :=
  match eff with
  | setDoc_merge key data =>
      exists firebaseUser createdAt,
        key = uid firebaseUser /\ data = basicUser firebaseUser createdAt
  | _ => True
  end.

(** * Facts *)

(** ** The message table *)


Lemma getErrorMessage_default code :
  code ∉ known_codes -> getErrorMessage code = "Erro ao fazer login. Tente novamente".
Proof.
  intros Hnot. unfold getErrorMessage.
  repeat match goal with
  | |- context [String.eqb code ?c] =>
      destruct (String.eqb_spec code c) as [->|_];
      [ exfalso; apply Hnot; unfold known_codes; set_solver | ]
  end.
  reflexivity.
Qed.



(** ** Single calls *)

Ltac run_call :=
  cbn -[basicUser spread_user upsert getErrorMessage].

Ltac settle_next :=
  match goal with
  | |- context [mjoin (head ?os)] =>
      let e := fresh "e" in destruct (mjoin (head os)) as [e|]; run_call
  end.

Section Calls.

Variable idp : string -> string -> thrown + FirebaseUser.

(** A failing [login] has called no state setter and has written nothing; it
    has logged the error it caught and throws [rethrow_login] of it. *)
Lemma login_failure_trace email password w outcomes w' e :
  exec idp (login email password) w outcomes = (w', inl e) ->
  user w' = user w /\ isLoading w' = isLoading w /\ users w' = users w /\
  exists earlier raised,
    console w' = (console w ++ earlier ++ [("Login error:", raised)])%list /\
    e = rethrow_login raised.
Proof.
  unfold login, createUserDocument. run_call. settle_next.
  { intros [= <- <-]; cbn. repeat split. by exists [], e0. }
  destruct (idp email password) as [e1|userCredential]; run_call.
  { intros [= <- <-]; cbn. repeat split. by exists [], e1. }
  settle_next.
  { intros [= <- <-]; cbn. repeat split. by exists [], e0. }
  destruct (users w !! uid userCredential) as [data|]; run_call; [intros [=] |].
  settle_next; [| intros [=]].
  intros [= <- <-]; cbn. repeat split.
  exists [("Error creating user document:", e0)], e0. by rewrite <- app_assoc.
Qed.


(** [logout], the two ways it can go. *)
Lemma logout_fulfilled w outcomes :
  exec idp logout w (None :: outcomes) = (with_user None w, inr tt).
Proof. reflexivity. Qed.

Lemma logout_rejected w e outcomes :
  exec idp logout w (Some e :: outcomes)
  = (with_console (console w ++ [("Logout error:", e)]) w,
     inl (new_Error "Erro ao fazer logout. Tente novamente")).
Proof. reflexivity. Qed.

(** The listener never throws and always ends with [isLoading = false]. *)
Lemma listener_total firebaseUser w outcomes :
  snd (exec idp (onAuthStateChanged firebaseUser) w outcomes) = inr tt /\
  isLoading (fst (exec idp (onAuthStateChanged firebaseUser) w outcomes)) = false.
Proof.
  unfold onAuthStateChanged, resolve_profile, createUserDocument.
  destruct firebaseUser as [firebaseUser|]; run_call; [| done].
  settle_next; [done |].
  destruct (users w !! uid firebaseUser) as [data|]; run_call; [done |].
  settle_next; done.
Qed.

End Calls.

(** ** The claims about single calls *)





(** C9.  The listener never throws and always ends with [isLoading = false].
    When reading the profile fails, or when creating it fails, then, whatever
    the state it started in (a user published, the application loading or
    not): no user is published, [isAuthenticated] and [isLoading] are false,
    the error is the last entry of the console, and the store is as before. *)
Theorem listener_error_falls_back idp firebaseUser w e outcomes :
  (forall change w outcomes,
      snd (exec idp (onAuthStateChanged change) w outcomes) = inr tt /\
      isLoading (fst (exec idp (onAuthStateChanged change) w outcomes)) = false) /\
  (let r := exec idp (onAuthStateChanged (Some firebaseUser)) w (Some e :: outcomes) in
   r = (with_isLoading false
          (with_user None
             (with_console (console w ++ [("Error in auth state change:", e)]) w)),
        inr tt) /\
   snd r = inr tt /\
   user (fst r) = None /\
   value (fst r) = {| ctx_user := None; isAuthenticated := false; ctx_isLoading := false |} /\
   console (fst r) = (console w ++ [("Error in auth state change:", e)])%list /\
   users (fst r) = users w) /\
  (users w !! uid firebaseUser = None ->
   let r := exec idp (onAuthStateChanged (Some firebaseUser)) w
              (None :: Some e :: outcomes) in
   r = (with_isLoading false
          (with_user None
             (with_console
                (console w ++ [("Error creating user document:", e);
                               ("Error in auth state change:", e)]) w)),
        inr tt) /\
   snd r = inr tt /\
   user (fst r) = None /\
   value (fst r) = {| ctx_user := None; isAuthenticated := false; ctx_isLoading := false |} /\
   console (fst r) = (console w ++ [("Error creating user document:", e);
                                    ("Error in auth state change:", e)])%list /\
   users (fst r) = users w).
Proof.
  split; [intros; apply listener_total |]. split; [by repeat split |].
  intros Habsent r.
  assert (Hrun : r = (with_isLoading false
                        (with_user None
                           (with_console
                              (console w ++ [("Error creating user document:", e);
                                             ("Error in auth state change:", e)]) w)),
                      inr tt)).
  { subst r. unfold onAuthStateChanged, resolve_profile, createUserDocument. run_call.
    rewrite Habsent. run_call. by rewrite <- app_assoc. }
  rewrite Hrun. by repeat split.
Qed.

Lemma listener_error_falls_back_witness :
  let w := Principals.signed_in in
  let r := exec Sample.provider (onAuthStateChanged (Some Sample.u123)) w
             [None; Some (ErrorObj (Some "permission-denied") "Missing permissions")] in
  user w = Some Sample.stored /\ isLoading w = true /\ users w !! "u123" = None /\
  snd r = inr tt /\
  user (fst r) = None /\
  isAuthenticated (value (fst r)) = false /\
  isLoading (fst r) = false /\
  console (fst r)
  = [("Login error:", Sample.plain_error);
     ("Error creating user document:",
      ErrorObj (Some "permission-denied") "Missing permissions");
     ("Error in auth state change:",
      ErrorObj (Some "permission-denied") "Missing permissions")].
Proof.
  intros w r. split; [reflexivity |]. split; [reflexivity |]. split; [reflexivity |].
  destruct (proj2 (proj2 (listener_error_falls_back Sample.provider Sample.u123 w
                            (ErrorObj (Some "permission-denied") "Missing permissions") []))
              eq_refl) as (_ & Hreturn & Huser & Hvalue & Hconsole & _).
  fold r in Hreturn, Huser, Hvalue, Hconsole.
  split; [exact Hreturn |]. split; [exact Huser |].
  split; [by rewrite Hvalue |].
  split; [change (ctx_isLoading (value (fst r)) = false); by rewrite Hvalue |].
  exact Hconsole.
Defined.

(** ** Profiles *)

Lemma spread_user_stored firebaseUser (data : JsObject) field v :
  data !! field = Some v -> spread_user firebaseUser data !! field = Some v.
Proof. intros Hfield. unfold spread_user. by apply lookup_union_Some_l. Qed.

Lemma spread_user_absent firebaseUser (data : JsObject) field :
  data !! field = None ->
  spread_user firebaseUser data !! field
  = (list_to_map [("id", VStr (uid firebaseUser));
                  ("email", nullable (email firebaseUser))] : JsObject) !! field.
Proof. intros Hfield. unfold spread_user. by apply lookup_union_r. Qed.

Lemma spread_user_other firebaseUser (data : JsObject) field :
  field <> "id" -> field <> "email" ->
  spread_user firebaseUser data !! field = data !! field.
Proof.
  intros Hid Hemail. unfold spread_user. rewrite lookup_union.
  replace ((list_to_map [("id", VStr (uid firebaseUser));
                         ("email", nullable (email firebaseUser))] : JsObject) !! field)
    with (@None JsValue).
  - by destruct (data !! field).
  - cbn [list_to_map foldr]. by rewrite !lookup_insert_ne, lookup_empty.
Qed.

Lemma upsert_lookup key (data : JsObject) (store : gmap string JsObject) :
  upsert key data store !! key = Some (data ∪ default ∅ (store !! key)).
Proof. unfold upsert. apply lookup_insert_eq. Qed.

Lemma upsert_new key (data : JsObject) (store : gmap string JsObject) :
  store !! key = None -> upsert key data store = <[key := data]> store.
Proof. intros Hnew. unfold upsert. rewrite Hnew. cbn. by rewrite (right_id_L ∅ (∪)). Qed.

Lemma upsert_dom key (data : JsObject) (store : gmap string JsObject) :
  dom (upsert key data store) = {[key]} ∪ dom store.
Proof. unfold upsert. apply dom_insert_L. Qed.

Lemma upsert_again key (first second : JsObject) (store : gmap string JsObject) :
  dom (upsert key second (upsert key first store)) = dom (upsert key first store) /\
  size (upsert key second (upsert key first store)) = size (upsert key first store).
Proof.
  assert (Hdom : dom (upsert key second (upsert key first store))
                 = dom (upsert key first store)).
  { by rewrite !upsert_dom, (assoc_L (∪)), (idemp_L (∪)). }
  split; [done |]. by rewrite <- !size_dom, Hdom.
Qed.

Lemma basicUser_fields firebaseUser createdAt :
  let profile := basicUser firebaseUser createdAt in
  profile !! "id" = Some (VStr (uid firebaseUser)) /\
  profile !! "email" = Some (nullable (email firebaseUser)) /\
  profile !! "name" = Some (VStr (or_default (displayName firebaseUser) "Usuário")) /\
  profile !! "role" = Some (VStr "usuario") /\
  profile !! "phone" = Some (VStr "") /\
  profile !! "location" = Some (VStr "") /\
  profile !! "status" = Some (VStr "ativo") /\
  profile !! "createdAt" = Some (VStr createdAt) /\
  profile !! "password" = Some (VStr "").
Proof. repeat split; reflexivity. Qed.

Lemma basicUser_dom firebaseUser createdAt :
  dom (basicUser firebaseUser createdAt)
  = list_to_set ["id"; "email"; "name"; "role"; "phone"; "location"; "createdAt";
                 "status"; "password"].
Proof. unfold basicUser. rewrite dom_list_to_map_L. reflexivity. Qed.

Lemma basicUser_overwrites firebaseUser earlier later :
  basicUser firebaseUser later ∪ basicUser firebaseUser earlier
  = basicUser firebaseUser later.
Proof.
  apply map_eq. intros field. rewrite lookup_union.
  destruct (basicUser firebaseUser later !! field) as [v|] eqn:Hlater.
  - by destruct (basicUser firebaseUser earlier !! field).
  - apply not_elem_of_dom in Hlater. rewrite basicUser_dom in Hlater.
    rewrite <- (basicUser_dom firebaseUser earlier) in Hlater.
    apply not_elem_of_dom in Hlater. by rewrite Hlater.
Qed.

Section Profiles.

Variable idp : string -> string -> thrown + FirebaseUser.

Lemma listener_existing firebaseUser data w outcomes :
  users w !! uid firebaseUser = Some data ->
  exec idp (onAuthStateChanged (Some firebaseUser)) w (None :: outcomes)
  = (with_isLoading false (with_user (Some (spread_user firebaseUser data)) w), inr tt).
Proof. intros Hdoc. unfold onAuthStateChanged, resolve_profile. run_call. by rewrite Hdoc. Qed.

Lemma login_existing email password firebaseUser data w outcomes :
  idp email password = inr firebaseUser ->
  users w !! uid firebaseUser = Some data ->
  exec idp (login email password) w (None :: None :: outcomes)
  = (with_user (Some (spread_user firebaseUser data)) w, inr tt).
Proof. intros Hok Hdoc. unfold login. run_call. rewrite Hok. run_call. by rewrite Hdoc. Qed.

Lemma listener_first_time firebaseUser w outcomes :
  users w !! uid firebaseUser = None ->
  let profile := basicUser firebaseUser (clock w) in
  exec idp (onAuthStateChanged (Some firebaseUser)) w (None :: None :: outcomes)
  = (with_isLoading false
       (with_user (Some profile)
          (with_users (<[uid firebaseUser := profile]> (users w)) w)),
     inr tt).
Proof.
  intros Hnew profile. unfold onAuthStateChanged, resolve_profile, createUserDocument. run_call.
  rewrite Hnew. run_call. by rewrite upsert_new.
Qed.

Lemma login_first_time email password firebaseUser w outcomes :
  idp email password = inr firebaseUser ->
  users w !! uid firebaseUser = None ->
  let profile := basicUser firebaseUser (clock w) in
  exec idp (login email password) w (None :: None :: None :: outcomes)
  = (with_user (Some profile)
       (with_users (<[uid firebaseUser := profile]> (users w)) w),
     inr tt).
Proof.
  intros Hok Hnew profile. unfold login, createUserDocument. run_call.
  rewrite Hok. run_call. rewrite Hnew. run_call. by rewrite upsert_new.
Qed.

End Profiles.

(** ** What the programs can do *)

Section EveryEffect.

Context (φ : forall X, Eff X -> Prop).

Lemma every_effect_call {X} (eff : Eff X) : φ _ eff -> every_effect φ (call eff).
Proof. intros Heff. split; [done |]. by intros [e|x]. Qed.

Lemma every_effect_bind {A B} (p : Prog A) (f : A -> Prog B) :
  every_effect φ p -> (forall a, every_effect φ (f a)) -> every_effect φ (bind p f).
Proof.
  intros Hp Hf. induction p as [a|e|X eff k IH]; cbn; [done | done |].
  destruct Hp as [Heff Hk]. split; [done |]. intros r. by apply IH.
Qed.

Lemma every_effect_try_catch {A} (p : Prog A) (h : thrown -> Prog A) :
  every_effect φ p -> (forall e, every_effect φ (h e)) -> every_effect φ (try_catch p h).
Proof.
  intros Hp Hh. induction p as [a|e|X eff k IH]; cbn; [done | done |].
  destruct Hp as [Heff Hk]. split; [done |]. intros r. by apply IH.
Qed.

Lemma every_effect_try_finally {A} (p : Prog A) (f : Prog unit) :
  every_effect φ p -> every_effect φ f -> every_effect φ (try_finally p f).
Proof.
  intros Hp Hf. induction p as [a|e|X eff k IH]; cbn.
  - by apply every_effect_bind.
  - by apply every_effect_bind.
  - destruct Hp as [Heff Hk]. split; [done |]. intros r. by apply IH.
Qed.

(** The coordinator's code, for a [φ] that holds of what it calls. *)
Hypothesis φ_signIn : forall email password, φ _ (signInWithEmailAndPassword email password).
Hypothesis φ_getDoc : forall key, φ _ (getDoc key).
Hypothesis φ_setDoc : forall firebaseUser createdAt,
    φ _ (setDoc_merge (uid firebaseUser) (basicUser firebaseUser createdAt)).
Hypothesis φ_signOut : φ _ firebaseSignOut.
Hypothesis φ_setUser : forall u, φ _ (setUser u).
Hypothesis φ_console : forall msg e, φ _ (console_error msg e).
Hypothesis φ_date : φ _ Date_toISOString.

Lemma every_effect_createUserDocument firebaseUser :
  every_effect φ (createUserDocument firebaseUser).
Proof.
  unfold createUserDocument. apply every_effect_bind; [by apply every_effect_call |].
  intros createdAt. apply every_effect_try_catch.
  - apply every_effect_bind; [by apply every_effect_call | done].
  - intros e. apply every_effect_bind; [by apply every_effect_call | done].
Qed.

Lemma every_effect_login email password : every_effect φ (login email password).
Proof.
  unfold login. apply every_effect_try_catch.
  - apply every_effect_bind; [by apply every_effect_call |]. intros userCredential.
    apply every_effect_bind; [by apply every_effect_call |]. intros [data|].
    + by apply every_effect_call.
    + apply every_effect_bind; [apply every_effect_createUserDocument |].
      intros newUser. by apply every_effect_call.
  - intros e. apply every_effect_bind; [by apply every_effect_call | done].
Qed.

Lemma every_effect_logout : every_effect φ logout.
Proof.
  unfold logout. apply every_effect_try_catch.
  - apply every_effect_bind; [by apply every_effect_call |]. intros _.
    by apply every_effect_call.
  - intros e. apply every_effect_bind; [by apply every_effect_call | done].
Qed.

Lemma every_effect_resolve_profile firebaseUser :
  every_effect φ (resolve_profile firebaseUser).
Proof.
  unfold resolve_profile. apply every_effect_try_catch.
  - destruct firebaseUser as [firebaseUser|]; [| by apply every_effect_call].
    apply every_effect_bind; [by apply every_effect_call |]. intros [data|].
    + by apply every_effect_call.
    + apply every_effect_bind; [apply every_effect_createUserDocument |].
      intros newUser. by apply every_effect_call.
  - intros e. apply every_effect_bind; [by apply every_effect_call |]. intros _.
    by apply every_effect_call.
Qed.

End EveryEffect.

(** C5 (as amended).  When the document of the principal exists, the listener
    and [login] publish the stored document with [id] and [email] of the
    provider added where the document has none: every field the document has,
    [id] and [email] included, keeps its stored value. *)
Theorem existing_profile_store_wins idp firebaseUser data w outcomes :
  users w !! uid firebaseUser = Some data ->
  exec idp (onAuthStateChanged (Some firebaseUser)) w (None :: outcomes)
  = (with_isLoading false (with_user (Some (spread_user firebaseUser data)) w), inr tt) /\
  (forall email password,
      idp email password = inr firebaseUser ->
      exec idp (login email password) w (None :: None :: outcomes)
      = (with_user (Some (spread_user firebaseUser data)) w, inr tt)) /\
  (forall field v,
      data !! field = Some v -> spread_user firebaseUser data !! field = Some v) /\
  (data !! "id" = None ->
   spread_user firebaseUser data !! "id" = Some (VStr (uid firebaseUser))) /\
  (data !! "email" = None ->
   spread_user firebaseUser data !! "email" = Some (nullable (email firebaseUser))) /\
  (forall field,
      field <> "id" -> field <> "email" ->
      spread_user firebaseUser data !! field = data !! field).
Proof.
  intros Hdoc. split; [by apply listener_existing |].
  split; [intros; by apply login_existing |].
  split; [apply spread_user_stored |].
  split; [intros Hnone; by rewrite spread_user_absent |].
  split; [intros Hnone; by rewrite spread_user_absent |].
  apply spread_user_other.
Qed.

Lemma existing_profile_store_wins_witness :
  let w := initial Sample.store Sample.now in
  users w !! "u123" = Some Sample.stored /\
  user (fst (exec Sample.provider (login "new@x.com" "Secret123") w [None; None]))
  = Some (spread_user Sample.u123 Sample.stored).
Proof.
  intros w. split; [reflexivity |].
  destruct (existing_profile_store_wins Sample.provider Sample.u123 Sample.stored w []
              eq_refl) as (_ & Hlogin & _).
  by rewrite (Hlogin "new@x.com" "Secret123" eq_refl).
Defined.

(** C5 as the specification has it fails: the account's address at the
    provider is [new@x.com], the document still says [old@x.com], and the
    published profile carries the stored one. *)
Lemma stored_email_overrides_provider :
  let w := initial Sample.store Sample.now in
  let r := exec Sample.provider (onAuthStateChanged (Some Sample.u123)) w [] in
  users w !! uid Sample.u123 = Some Sample.stored /\
  snd r = inr tt /\
  (user (fst r) ≫= lookup "email") = Some (VStr "old@x.com") /\
  nullable (email Sample.u123) = VStr "new@x.com".
Proof. repeat split. Qed.

(** C7.  A principal without a document signs in: the listener and [login]
    write a profile under the principal's id and publish it, so that
    [isAuthenticated] is true.  The profile has the provider's id; the
    provider's email, or [null] when the provider has none; the provider's
    display name, or "Usuário" when the provider has none or an empty one;
    role [usuario], empty phone and location, status [ativo] and the current
    time as [createdAt].  Writing a profile again under the same id leaves one
    document under that id. *)
Theorem first_sign_in_creates_profile idp firebaseUser w outcomes :
  users w !! uid firebaseUser = None ->
  let profile := basicUser firebaseUser (clock w) in
  let created :=
    with_user (Some profile) (with_users (<[uid firebaseUser := profile]> (users w)) w) in
  exec idp (onAuthStateChanged (Some firebaseUser)) w (None :: None :: outcomes)
  = (with_isLoading false created, inr tt) /\
  (forall email password,
      idp email password = inr firebaseUser ->
      exec idp (login email password) w (None :: None :: None :: outcomes)
      = (created, inr tt)) /\
  value created = {| ctx_user := Some profile; isAuthenticated := true;
                     ctx_isLoading := isLoading w |} /\
  user created = Some profile /\
  users created !! uid firebaseUser = Some profile /\
  (forall key, key <> uid firebaseUser -> users created !! key = users w !! key) /\
  (profile !! "id" = Some (VStr (uid firebaseUser)) /\
   profile !! "email" = Some match email firebaseUser with
                             | Some address => VStr address
                             | None => VNull
                             end /\
   profile !! "name" = Some (VStr match displayName firebaseUser with
                                  | Some given => if String.eqb given "" then "Usuário"
                                                  else given
                                  | None => "Usuário"
                                  end) /\
   (forall given, displayName firebaseUser = Some given -> given <> "" ->
                  profile !! "name" = Some (VStr given)) /\
   (displayName firebaseUser = None \/ displayName firebaseUser = Some "" ->
    profile !! "name" = Some (VStr "Usuário")) /\
   profile !! "role" = Some (VStr "usuario") /\
   profile !! "phone" = Some (VStr "") /\
   profile !! "location" = Some (VStr "") /\
   profile !! "status" = Some (VStr "ativo") /\
   profile !! "createdAt" = Some (VStr (clock w))) /\
  (forall later,
      let again := upsert (uid firebaseUser) (basicUser firebaseUser later) (users created) in
      dom again = dom (users created) /\ size again = size (users created) /\
      again !! uid firebaseUser = Some (basicUser firebaseUser later)).
Proof.
  intros Hnew profile created.
  split; [by apply listener_first_time |].
  split; [intros; by apply login_first_time |].
  split; [reflexivity |].
  split; [reflexivity |].
  split; [apply lookup_insert_eq |].
  split; [intros key Hkey; cbn; by rewrite lookup_insert_ne |].
  split.
  { split; [reflexivity |]. split; [reflexivity |]. split; [reflexivity |].
    split.
    { intros given Hgiven Hnonempty.
      change (profile !! "name")
        with (Some (VStr (or_default (displayName firebaseUser) "Usuário"))).
      rewrite Hgiven. cbn. by rewrite (proj2 (String.eqb_neq given "") Hnonempty). }
    split.
    { intros Hnone.
      change (profile !! "name")
        with (Some (VStr (or_default (displayName firebaseUser) "Usuário"))).
      by destruct Hnone as [-> | ->]. }
    repeat split; reflexivity. }
  intros later again. unfold again, created. cbn [users with_user with_users].
  rewrite <- (upsert_new _ _ _ Hnew).
  destruct (upsert_again (uid firebaseUser) profile (basicUser firebaseUser later) (users w))
    as [Hdom Hsize].
  split; [done |]. split; [done |].
  rewrite !upsert_lookup, Hnew. cbn [default id].
  unfold profile. by rewrite (right_id_L ∅ (∪)), basicUser_overwrites.
Qed.

Lemma first_sign_in_creates_profile_witness :
  let w := initial Sample.empty_store Sample.now in
  let r := exec Principals.provider (onAuthStateChanged (Some Principals.maria)) w
             [None; None] in
  let r' := exec Principals.provider (login "x@exemplo.com" "Outra123") w
              [None; None; None] in
  users w !! "u456" = None /\ users w !! "u789" = None /\
  (isAuthenticated (value (fst r)) = true /\
   ((users (fst r) !! "u456") ≫= lookup "name") = Some (VStr "Maria Santos") /\
   ((users (fst r) !! "u456") ≫= lookup "email") = Some (VStr "maria@exemplo.com") /\
   ((user (fst r)) ≫= lookup "name") = Some (VStr "Maria Santos")) /\
  (snd r' = inr tt /\
   ((users (fst r') !! "u789") ≫= lookup "name") = Some (VStr "Usuário") /\
   ((users (fst r') !! "u789") ≫= lookup "email") = Some VNull /\
   ((user (fst r')) ≫= lookup "role") = Some (VStr "usuario")).
Proof.
  intros w r r'. split; [reflexivity |]. split; [reflexivity |]. split.
  - destruct (first_sign_in_creates_profile Principals.provider Principals.maria w []
                eq_refl)
      as (Hrun & _ & _ & Huser & Hstored & _ & (_ & Hemail & _ & Hname & _) & _).
    assert (Hdoc : users (fst r) !! "u456"
                   = Some (basicUser Principals.maria (clock w)))
      by (subst r; rewrite Hrun; exact Hstored).
    assert (Hpublished : user (fst r) = Some (basicUser Principals.maria (clock w)))
      by (subst r; rewrite Hrun; exact Huser).
    rewrite Hdoc. unfold value, isAuthenticated. rewrite Hpublished.
    cbn [mbind option_bind truthy].
    split; [reflexivity |]. split; [by apply Hname |]. split; [exact Hemail |].
    by apply Hname.
  - destruct (first_sign_in_creates_profile Principals.provider Principals.nameless w []
                eq_refl)
      as (_ & Hlogin & _ & Huser & Hstored & _ &
          (_ & Hemail & _ & _ & Hdefault & Hrole & _) & _).
    specialize (Hlogin "x@exemplo.com" "Outra123" eq_refl).
    assert (Hdoc : users (fst r') !! "u789"
                   = Some (basicUser Principals.nameless (clock w)))
      by (subst r'; rewrite Hlogin; exact Hstored).
    assert (Hpublished : user (fst r') = Some (basicUser Principals.nameless (clock w)))
      by (subst r'; rewrite Hlogin; exact Huser).
    assert (Hreturn : snd r' = inr tt) by (subst r'; by rewrite Hlogin).
    rewrite Hdoc, Hpublished. cbn [mbind option_bind].
    split; [exact Hreturn |]. split; [apply Hdefault; by right |].
    split; [exact Hemail |]. exact Hrole.
Defined.

(** Two runs of the listener for the same new principal, their reads and
    writes interleaved: both find no document, both write, and the collection
    has the one document. *)
Example racing_first_sign_ins_one_document :
  let m := run Sample.provider (boot Sample.empty_store Sample.now)
             [AuthStateChanged (Some Sample.u123); AuthStateChanged (Some Sample.u123);
              Settle 0 None; Settle 1 None; Settle 0 None; Settle 0 None] in
  users (state m) = {[ "u123" := basicUser Sample.u123 Sample.now ]} /\
  user (state m) = Some (basicUser Sample.u123 Sample.now) /\
  finished m = [(Listener, inr tt); (Listener, inr tt)] /\
  length (pending m) = 0.
Proof. repeat split. Qed.

Lemma basicUser_values firebaseUser createdAt field v :
  basicUser firebaseUser createdAt !! field = Some v ->
  v ∈ [ VStr (uid firebaseUser);
        match email firebaseUser with Some address => VStr address | None => VNull end;
        VStr match displayName firebaseUser with
             | Some given => if String.eqb given "" then "Usuário" else given
             | None => "Usuário"
             end;
        VStr "usuario"; VStr ""; VStr "ativo"; VStr createdAt ].
Proof.
  intros Hfield.
  assert (Hdom : field ∈ dom (basicUser firebaseUser createdAt)).
  { apply elem_of_dom. by exists v. }
  rewrite basicUser_dom, elem_of_list_to_set, !elem_of_cons, elem_of_nil in Hdom.
  rewrite !elem_of_cons.
  repeat (destruct Hdom as [-> | Hdom]; [injection Hfield as <-; tauto |]).
  done.
Qed.

Lemma login_ignores_password idp email password1 password2 w outcomes :
  idp email password1 = idp email password2 ->
  exec idp (login email password1) w outcomes = exec idp (login email password2) w outcomes.
Proof.
  intros Hsame. unfold login. run_call.
  destruct (mjoin (head outcomes)) as [e|]; [reflexivity |]. by rewrite Hsame.
Qed.

Lemma writes_profile_login email password :
  every_effect (@writes_profile) (login email password).
Proof. apply every_effect_login; try done. intros firebaseUser createdAt. cbn. eauto. Qed.

Lemma writes_profile_listener change :
  every_effect (@writes_profile) (onAuthStateChanged change).
Proof.
  unfold onAuthStateChanged. apply every_effect_try_finally.
  - apply every_effect_resolve_profile; try done.
    intros firebaseUser createdAt. cbn. eauto.
  - by apply every_effect_call.
Qed.

(** C10.  The first sign-in of a principal, through the listener or through
    [login], stores under the principal's id a document with the fields of a
    user profile and a [password] field, and that field is the empty string.
    Every store write of [login], of [logout] and of the listener is the
    profile of a principal under that principal's id, with an empty
    [password]; each value in it is the principal's id, email or display name,
    the time, or one of the constants.  The password given to [login] reaches
    the provider only: two passwords that the provider answers alike give the
    same run, the same store and the same console. *)
Theorem password_always_blank :
  (forall firebaseUser createdAt,
      dom (basicUser firebaseUser createdAt)
      = list_to_set ["id"; "email"; "name"; "role"; "phone"; "location"; "createdAt";
                     "status"; "password"] /\
      basicUser firebaseUser createdAt !! "password" = Some (VStr "")) /\
  (forall email password, every_effect (@blank_password) (login email password)) /\
  (forall firebaseUser, every_effect (@blank_password) (onAuthStateChanged firebaseUser)) /\
  every_effect (@blank_password) logout /\
  (forall key (data : JsObject) (store : gmap string JsObject),
      blank_password (setDoc_merge key data) ->
      ((upsert key data store !! key) ≫= lookup "password") = Some (VStr "")) /\
  (forall idp firebaseUser w outcomes,
      users w !! uid firebaseUser = None ->
      let stored := users (fst (exec idp (onAuthStateChanged (Some firebaseUser)) w
                                  (None :: None :: outcomes))) !! uid firebaseUser in
      stored = Some (basicUser firebaseUser (clock w)) /\
      (stored ≫= lookup "password") = Some (VStr "") /\
      forall email password,
        idp email password = inr firebaseUser ->
        let stored' := users (fst (exec idp (login email password) w
                                     (None :: None :: None :: outcomes)))
                       !! uid firebaseUser in
        stored' = Some (basicUser firebaseUser (clock w)) /\
        (stored' ≫= lookup "password") = Some (VStr "")) /\
  ((forall email password, every_effect (@writes_profile) (login email password)) /\
   (forall change, every_effect (@writes_profile) (onAuthStateChanged change)) /\
   every_effect (@writes_profile) logout) /\
  (forall firebaseUser createdAt field v,
      basicUser firebaseUser createdAt !! field = Some v ->
      v ∈ [ VStr (uid firebaseUser);
            match email firebaseUser with Some address => VStr address | None => VNull end;
            VStr match displayName firebaseUser with
                 | Some given => if String.eqb given "" then "Usuário" else given
                 | None => "Usuário"
                 end;
            VStr "usuario"; VStr ""; VStr "ativo"; VStr createdAt ]) /\
  (forall idp email password1 password2 w outcomes,
      idp email password1 = idp email password2 ->
      exec idp (login email password1) w outcomes
      = exec idp (login email password2) w outcomes).
Proof.
  split; [intros; split; [apply basicUser_dom | reflexivity] |].
  split; [intros; by apply every_effect_login |].
  split.
  { intros firebaseUser. unfold onAuthStateChanged. apply every_effect_try_finally.
    - by apply every_effect_resolve_profile.
    - by apply every_effect_call. }
  split; [by apply every_effect_logout |].
  split.
  { intros key data store Hblank. rewrite upsert_lookup. cbn.
    by apply lookup_union_Some_l. }
  split.
  { intros idp firebaseUser w outcomes Hnew stored.
    subst stored. rewrite (listener_first_time idp firebaseUser w outcomes Hnew).
    cbn [fst users with_isLoading with_user with_users]. rewrite lookup_insert_eq.
    split; [done |]. split; [reflexivity |].
    intros email password Hok. cbn zeta.
    rewrite (login_first_time idp email password firebaseUser w outcomes Hok Hnew).
    cbn [fst users with_user with_users]. rewrite lookup_insert_eq.
    split; [done | reflexivity]. }
  split.
  { split; [apply writes_profile_login |]. split; [apply writes_profile_listener |].
    by apply every_effect_logout. }
  split; [apply basicUser_values | apply login_ignores_password].
Qed.

Lemma password_always_blank_witness :
  let w := initial Sample.empty_store Sample.now in
  let r := exec Sample.provider (login "new@x.com" "Secret123") w [None; None; None] in
  users w !! "u123" = None /\
  Sample.provider "new@x.com" "Secret123" = inr Sample.u123 /\
  snd r = inr tt /\
  ((users (fst r) !! "u123") ≫= lookup "password") = Some (VStr "") /\
  forall field,
    (users (fst r) !! "u123") ≫= lookup field <> Some (VStr "Secret123").
Proof.
  intros w r. split; [reflexivity |]. split; [reflexivity |]. split; [reflexivity |].
  destruct password_always_blank as (_ & _ & _ & _ & _ & Hfirst & _ & Hvalues & _).
  destruct (Hfirst Sample.provider Sample.u123 w [] eq_refl) as (_ & _ & Hlogin).
  destruct (Hlogin "new@x.com" "Secret123" eq_refl) as [Hstored Hblank].
  assert (Hdoc : users (fst r) !! "u123" = Some (basicUser Sample.u123 (clock w)))
    by exact Hstored.
  split; [exact Hblank |].
  intros field Hfield. rewrite Hdoc in Hfield. cbn [mbind option_bind] in Hfield.
  apply Hvalues in Hfield. rewrite !elem_of_cons, elem_of_nil in Hfield.
  repeat (destruct Hfield as [Hfield | Hfield]; [discriminate Hfield |]). done.
Defined.

(** ** The event loop *)

Lemma advance_done {A} idp (p : Prog A) w : done p = true -> advance idp p w = (w, p).
Proof. by destruct p. Qed.

Lemma perform_isLoading {X} idp (eff : Eff X) w failure :
  loading_arg eff = None -> isLoading (fst (perform idp eff w failure)) = isLoading w.
Proof. destruct eff; destruct failure; done. Qed.

Lemma perform_setIsLoading {X} idp (eff : Eff X) b w failure :
  loading_arg eff = Some b -> isLoading (fst (perform idp eff w failure)) = b.
Proof. destruct eff; try done. by intros [= ->]. Qed.

Lemma advance_untouched {A} idp (p : Prog A) w :
  untouched p ->
  isLoading (fst (advance idp p w)) = isLoading w /\ untouched (snd (advance idp p w)).
Proof.
  revert w. induction p as [a|e|X eff k IH]; intros w Hp; [done | done |].
  destruct Hp as [Heff Hk]. cbn [advance].
  destruct (is_async eff); [by split |].
  pose proof (perform_isLoading idp eff w None Heff) as Hsame.
  destruct (perform idp eff w None) as [w1 r]. cbn [fst] in Hsame.
  destruct (IH r w1 (Hk r)) as [Hloading Hrest]. split; [congruence | done].
Qed.

Lemma advance_unloads {A} idp (p : Prog A) w :
  unloads_at_end p ->
  if done (snd (advance idp p w))
  then isLoading (fst (advance idp p w)) = false
  else isLoading (fst (advance idp p w)) = isLoading w /\
       unloads_at_end (snd (advance idp p w)).
Proof.
  revert w. induction p as [a|e|X eff k IH]; intros w Hp; [done | done |].
  cbn [advance]. destruct (is_async eff) eqn:Hasync; [by split |].
  cbn [unloads_at_end] in Hp.
  destruct (loading_arg eff) as [b|] eqn:Harg.
  - destruct Hp as [-> Hk].
    pose proof (perform_setIsLoading idp eff false w None Harg) as Hoff.
    destruct (perform idp eff w None) as [w1 r]. cbn [fst] in Hoff.
    rewrite (advance_done idp (k r) w1 (Hk r)). cbn [fst snd]. by rewrite Hk.
  - pose proof (perform_isLoading idp eff w None Harg) as Hsame.
    destruct (perform idp eff w None) as [w1 r]. cbn [fst] in Hsame.
    specialize (IH r w1 (Hp r)).
    destruct (done (snd (advance idp (k r) w1))); [done |].
    destruct IH as [Hloading Hrest]. split; [congruence | done].
Qed.

Lemma resume_untouched {X} idp (eff : Eff X) k w failure :
  untouched (Do eff k) ->
  isLoading (fst (resume idp eff k w failure)) = isLoading w /\
  untouched (snd (resume idp eff k w failure)).
Proof.
  intros [Heff Hk]. unfold resume.
  pose proof (perform_isLoading idp eff w failure Heff) as Hsame.
  destruct (perform idp eff w failure) as [w1 r]. cbn [fst] in Hsame.
  destruct (advance_untouched idp (k r) w1 (Hk r)) as [Hloading Hrest].
  split; [congruence | done].
Qed.

Lemma resume_unloads {X} idp (eff : Eff X) k w failure :
  unloads_at_end (Do eff k) ->
  if done (snd (resume idp eff k w failure))
  then isLoading (fst (resume idp eff k w failure)) = false
  else isLoading (fst (resume idp eff k w failure)) = isLoading w /\
       unloads_at_end (snd (resume idp eff k w failure)).
Proof.
  intros Hp. unfold resume. cbn [unloads_at_end] in Hp.
  destruct (loading_arg eff) as [b|] eqn:Harg.
  - destruct Hp as [-> Hk].
    pose proof (perform_setIsLoading idp eff false w failure Harg) as Hoff.
    destruct (perform idp eff w failure) as [w1 r]. cbn [fst] in Hoff.
    rewrite (advance_done idp (k r) w1 (Hk r)). cbn [fst snd]. by rewrite Hk.
  - pose proof (perform_isLoading idp eff w failure Harg) as Hsame.
    destruct (perform idp eff w failure) as [w1 r]. cbn [fst] in Hsame.
    pose proof (advance_unloads idp (k r) w1 (Hp r)) as Hrun.
    destruct (done (snd (advance idp (k r) w1))); [done |].
    destruct Hrun as [Hloading Hrest]. split; [congruence | done].
Qed.

Lemma try_finally_unloads (p : Prog unit) :
  untouched p -> unloads_at_end (try_finally p (call (setIsLoading false))).
Proof.
  induction p as [a|e|X eff k IH]; intros Hp; cbn.
  - split; [done |]. by intros [e|x].
  - split; [done |]. by intros [e'|x].
  - destruct Hp as [Heff Hk]. cbn in Heff.
    rewrite Heff. intros r. apply IH, Hk.
Qed.

Lemma untouched_login email password : untouched (login email password).
Proof. by apply every_effect_login. Qed.

Lemma untouched_logout : untouched logout.
Proof. by apply every_effect_logout. Qed.

Lemma unloads_onAuthStateChanged firebaseUser :
  unloads_at_end (onAuthStateChanged firebaseUser).
Proof. apply try_finally_unloads. by apply every_effect_resolve_profile. Qed.

Lemma resolved_finished st ps fin o (x : thrown + unit) :
  resolved {| state := st; pending := ps; finished := fin ++ [(o, x)] |}
  = resolved {| state := st; pending := ps; finished := fin |} || is_listener o.
Proof. unfold resolved. cbn. rewrite existsb_app. cbn. by rewrite orb_false_r. Qed.

Section Loop.

Variable idp : string -> string -> thrown + FirebaseUser.

Lemma loop_inv_boot store now : loop_inv (boot store now).
Proof. split; [constructor | reflexivity]. Qed.

(** A call that stops at [p] in state [w] keeps the invariant when [p] and [w]
    are as [advance] and [resume] leave them. *)
Lemma loop_inv_park o slot w p m :
  loop_inv m ->
  (if done p
   then if is_listener o then isLoading w = false
        else isLoading w = isLoading (state m)
   else isLoading w = isLoading (state m) /\ task_ok (o, p)) ->
  loop_inv (park o slot w p m).
Proof.
  intros [Hpending Hloading] Hp.
  assert (Hrest : Forall task_ok
                    (from_option (fun i => delete i (pending m)) (pending m) slot)).
  { destruct slot as [i|]; [by apply Forall_delete | done]. }
  destruct p as [a|e|X eff k]; cbn [done] in Hp; unfold park.
  - split; [done |]. rewrite resolved_finished. cbn [state].
    destruct (is_listener o).
    + by rewrite orb_true_r.
    + rewrite orb_false_r, Hp, Hloading. by destruct m.
  - split; [done |]. rewrite resolved_finished. cbn [state].
    destruct (is_listener o).
    + by rewrite orb_true_r.
    + rewrite orb_false_r, Hp, Hloading. by destruct m.
  - destruct Hp as [Hsame Hok]. split; cbn [pending state].
    + destruct slot as [i|].
      * by apply Forall_insert.
      * apply Forall_app. split; [done |]. by constructor.
    + rewrite Hsame, Hloading. by destruct m.
Qed.

Lemma loop_inv_spawn o p m :
  loop_inv m -> task_ok (o, p) -> loop_inv (spawn idp o p m).
Proof.
  intros Hinv Hok. unfold spawn.
  destruct (advance idp p (state m)) as [w p'] eqn:Hrun.
  apply loop_inv_park; [done |].
  destruct o; cbn [is_listener]; unfold task_ok in Hok |- *; cbn [fst snd] in Hok |- *.
  - pose proof (advance_unloads idp p (state m) Hok) as Hp. rewrite Hrun in Hp.
    cbn [fst snd] in Hp. by destruct (done p').
  - destruct (advance_untouched idp p (state m) Hok) as [Hsame Hrest].
    rewrite Hrun in Hsame, Hrest. cbn [fst snd] in Hsame, Hrest.
    by destruct (done p').
  - destruct (advance_untouched idp p (state m) Hok) as [Hsame Hrest].
    rewrite Hrun in Hsame, Hrest. cbn [fst snd] in Hsame, Hrest.
    by destruct (done p').
Qed.

Lemma loop_inv_settle task failure m :
  loop_inv m -> loop_inv (settle idp task failure m).
Proof.
  intros Hinv. unfold settle.
  destruct (pending m !! task) as [[o p]|] eqn:Htask; [| done].
  destruct p as [a|e|X eff k]; [done | done |].
  assert (Hok : task_ok (o, Do eff k)).
  { destruct Hinv as [Hpending _]. rewrite Forall_lookup in Hpending.
    by apply (Hpending task). }
  pose proof (resume_unloads idp eff k (state m) failure) as Hlistener.
  pose proof (resume_untouched idp eff k (state m) failure) as Hcall.
  unfold resume in Hlistener, Hcall.
  destruct (perform idp eff (state m) failure) as [w1 r].
  destruct (advance idp (k r) w1) as [w p']. cbn [fst snd] in Hlistener, Hcall.
  apply loop_inv_park; [done |].
  destruct o; cbn [is_listener]; unfold task_ok in Hok |- *; cbn [fst snd] in Hok |- *.
  - specialize (Hlistener Hok). by destruct (done p').
  - destruct (Hcall Hok) as [Hsame Hrest]. by destruct (done p').
  - destruct (Hcall Hok) as [Hsame Hrest]. by destruct (done p').
Qed.

Lemma loop_inv_step m l : loop_inv m -> loop_inv (step idp m l).
Proof.
  intros Hinv. destruct l as [firebaseUser|email password| |task failure|key data|now];
    cbn [step].
  - apply loop_inv_spawn; [done |]. apply unloads_onAuthStateChanged.
  - apply loop_inv_spawn; [done |]. apply untouched_login.
  - apply loop_inv_spawn; [done |]. apply untouched_logout.
  - by apply loop_inv_settle.
  - destruct Hinv as [Hpending Hloading]. by split.
  - destruct Hinv as [Hpending Hloading]. by split.
Qed.

Lemma loop_inv_run m ls : loop_inv m -> loop_inv (run idp m ls).
Proof.
  revert m. induction ls as [|l ls IH]; intros m Hinv; [done |].
  apply IH. by apply loop_inv_step.
Qed.

(** The record of finished calls only grows. *)
Lemma finished_park o slot w p m :
  exists more, finished (park o slot w p m) = (finished m ++ more)%list.
Proof.
  destruct p as [a|e|X eff k]; cbn; eauto.
  exists []. by rewrite app_nil_r.
Qed.

Lemma finished_spawn o p m :
  exists more, finished (spawn idp o p m) = (finished m ++ more)%list.
Proof. unfold spawn. destruct (advance idp p (state m)). apply finished_park. Qed.

Lemma finished_settle task failure m :
  exists more, finished (settle idp task failure m) = (finished m ++ more)%list.
Proof.
  unfold settle.
  destruct (pending m !! task) as [[o [a|e|X eff k]]|];
    try (exists []; by rewrite app_nil_r).
  destruct (perform idp eff (state m) failure) as [w r].
  destruct (advance idp (k r) w). apply finished_park.
Qed.

Lemma finished_step m l :
  exists more, finished (step idp m l) = (finished m ++ more)%list.
Proof.
  destruct l as [firebaseUser|email password| |task failure|key data|now]; cbn [step].
  - apply finished_spawn.
  - apply finished_spawn.
  - apply finished_spawn.
  - apply finished_settle.
  - exists []. by rewrite app_nil_r.
  - exists []. by rewrite app_nil_r.
Qed.

Lemma resolved_step m l : resolved m = true -> resolved (step idp m l) = true.
Proof.
  intros Hres. destruct (finished_step m l) as [more Hmore].
  unfold resolved in *. rewrite Hmore, existsb_app, Hres. done.
Qed.

Lemma loading_stays_off m l :
  loop_inv m -> isLoading (state m) = false -> isLoading (state (step idp m l)) = false.
Proof.
  intros Hinv Hoff.
  rewrite (inv_loading _ (loop_inv_step m l Hinv)).
  rewrite resolved_step; [done |].
  rewrite (inv_loading _ Hinv) in Hoff. by destruct (resolved m).
Qed.

Lemma loading_trace_off m ls :
  loop_inv m -> isLoading (state m) = false ->
  loading_trace idp m ls = replicate (S (length ls)) false.
Proof.
  revert m. induction ls as [|l ls IH]; intros m Hinv Hoff; unfold loading_trace; cbn.
  - by rewrite Hoff.
  - rewrite Hoff. f_equal. apply IH; [by apply loop_inv_step | by apply loading_stays_off].
Qed.

Lemma loading_trace_shape m ls :
  loop_inv m ->
  exists a b, loading_trace idp m ls = (replicate a true ++ replicate b false)%list /\
              (isLoading (state m) = true -> 0 < a).
Proof.
  revert m. induction ls as [|l ls IH]; intros m Hinv.
  - unfold loading_trace. cbn. destruct (isLoading (state m)).
    + exists 1, 0. split; [done | lia].
    + exists 0, 1. split; [done | done].
  - destruct (isLoading (state m)) eqn:Hloading.
    + destruct (IH (step idp m l) (loop_inv_step m l Hinv)) as (a & b & Hshape & _).
      exists (S a), b. split; [| lia].
      unfold loading_trace in *. cbn. by rewrite Hloading, Hshape.
    + exists 0, (S (length (l :: ls))). split; [| done].
      by apply loading_trace_off.
Qed.

Lemma history_last m ls : last (history idp m ls) = Some (run idp m ls).
Proof.
  revert m. induction ls as [|l ls IH]; intros m; [done |].
  cbn [history]. rewrite last_cons, IH. done.
Qed.

End Loop.

(** ** A resolution from its event to its end *)

Lemma settle_idle idp task failure m :
  length (pending m) <= task -> settle idp task failure m = m.
Proof. intros Hpast. unfold settle. by rewrite lookup_ge_None_2. Qed.

Section Undisturbed.

Variable idp : string -> string -> thrown + FirebaseUser.

Lemma resolution_undisturbed m change o1 o2 :
  let slot := length (pending m) in
  let r := exec idp (onAuthStateChanged change) (state m) [o1; o2] in
  run idp m [AuthStateChanged change; Settle slot o1; Settle slot o2]
  = {| state := fst r; pending := pending m;
       finished := finished m ++ [(Listener, inr tt)] |}.
Proof.
  intros slot r. subst slot r. unfold run. cbn [foldl step].
  destruct change as [firebaseUser|].
  - unfold spawn, onAuthStateChanged, resolve_profile, createUserDocument. run_call.
    unfold settle at 2. cbn [pending state].
    rewrite list_lookup_middle by done. run_call.
    destruct o1 as [e1|]; run_call.
    + rewrite delete_middle, app_nil_r. by rewrite settle_idle by (cbn [pending]; lia).
    + destruct (users (state m) !! uid firebaseUser) as [data|]; run_call.
      * rewrite delete_middle, app_nil_r. by rewrite settle_idle by (cbn [pending]; lia).
      * rewrite insert_app_r_alt by done. rewrite Nat.sub_diag. cbn [insert list_insert].
        unfold settle. cbn [pending state].
        rewrite list_lookup_middle by done. run_call.
        destruct o2 as [e2|]; run_call.
        -- by rewrite delete_middle, app_nil_r.
        -- by rewrite delete_middle, app_nil_r.
  - unfold spawn. run_call. rewrite (settle_idle idp _ o1) by (cbn [pending]; lia).
    by rewrite settle_idle by (cbn [pending]; lia).
Qed.

End Undisturbed.


(** ** The claims about the event loop *)

(** C2 (as amended).  From every start and through every sequence of events, calls and
    settled awaits: [isLoading] starts true and is true exactly as long as no
    run of the listener has finished (be it for a sign-in, for a sign-out, or
    one whose profile resolution failed); the values it takes are some [true]s
    followed by [false]s only, with a [false] at the end exactly when a run of
    the listener has finished: one change from true to false, none back.  When
    the first event is resolved to its end, whatever the event and however its
    store calls go, [isLoading] is false. *)
Theorem isLoading_turns_off_once idp store now ls :
  let m := run idp (boot store now) ls in
  isLoading (state (boot store now)) = true /\
  isLoading (state m) = negb (resolved m) /\
  (exists a b,
      loading_trace idp (boot store now) ls
      = (replicate (S a) true ++ replicate b false)%list /\
      (b = 0 <-> resolved m = false)) /\
  (forall change o1 o2,
      isLoading (state (run idp (boot store now)
                          [AuthStateChanged change; Settle 0 o1; Settle 0 o2]))
      = false).
Proof.
  intros m. pose proof (loop_inv_boot store now) as Hboot.
  pose proof (inv_loading _ (loop_inv_run idp _ ls Hboot)) as Hloading.
  fold m in Hloading. split; [done |]. split; [done |].
  split; [| intros change o1 o2;
            rewrite (resolution_undisturbed idp (boot store now));
            apply listener_total ].
  destruct (loading_trace_shape idp _ ls Hboot) as (a & b & Hshape & Hpos).
  destruct a as [|a]; [specialize (Hpos eq_refl); lia |].
  exists a, b. split; [done |].
  assert (Hlast : last (loading_trace idp (boot store now) ls) = Some (isLoading (state m))).
  { unfold loading_trace. by rewrite fmap_last, history_last. }
  rewrite Hshape, Hloading in Hlast. destruct b as [|b].
  - rewrite app_nil_r, replicate_S_end, last_snoc in Hlast.
    split; [intros _ | done]. injection Hlast as Hlast. by destruct (resolved m).
  - rewrite (replicate_S_end b), app_assoc, last_snoc in Hlast.
    split; [done |]. intros Hres. rewrite Hres in Hlast. done.
Qed.

(** C2 as the specification has it fails: a sign-in is delivered and its run
    of the listener waits for the document; a sign-out is delivered and its
    run finishes at once.  [isLoading] is false from then on, while the
    resolution of the first event is still suspended, unchanged, and completes
    only when its read settles. *)
Lemma loading_ends_before_first_resolution :
  let m0 := boot Sample.store Sample.now in
  let m1 := step Sample.provider m0 (AuthStateChanged (Some Sample.u123)) in
  let m2 := step Sample.provider m1 (AuthStateChanged None) in
  let m3 := step Sample.provider m2 (Settle 0 None) in
  (isLoading (state m1) = true /\ length (pending m1) = 1 /\ finished m1 = []) /\
  (isLoading (state m2) = false /\ pending m2 = pending m1 /\
   finished m2 = [(Listener, inr tt)]) /\
  (isLoading (state m3) = false /\ pending m3 = [] /\
   finished m3 = [(Listener, inr tt); (Listener, inr tt)]).
Proof. repeat split. Qed.

(** C3.  In every state the event loop reaches, the context value has
    [isAuthenticated] true exactly when its [user] is not [null], and its
    [user] is the one in the state. *)
Theorem isAuthenticated_iff_user idp store now ls :
  let v := value (state (run idp (boot store now) ls)) in
  ctx_user v = user (state (run idp (boot store now) ls)) /\
  (isAuthenticated v = true <-> is_Some (ctx_user v)) /\
  (isAuthenticated v = false <-> ctx_user v = None).
Proof.
  intros v. subst v. unfold value. cbn.
  destruct (user (state (run idp (boot store now) ls))) as [u|]; cbn.
  - split; [done |]. split; split; try done; by intros [? [=]].
  - split; [done |]. split; split; try done; by intros [? [=]].
Qed.

(** ** The route guard *)

(** C4.  The decision of the route guard depends on [isLoading],
    [isAuthenticated], the role of the current user and the required roles
    only: nothing while loading; else the login view when not authenticated;
    else the unauthorized view when roles are required and the user's role is
    not among them; else the protected content.  With [admin] required, an
    [organizador] is sent to the unauthorized view and an [admin] gets the
    content. *)
Theorem route_guard_decides allowedRoles auth :
  ProtectedRoute allowedRoles auth
  = guard (ctx_isLoading auth) (isAuthenticated auth)
          (ctx_user auth ≫= lookup "role") allowedRoles /\
  (forall authenticated role requiredRoles,
      guard true authenticated role requiredRoles = Suspend) /\
  (forall role requiredRoles,
      guard false false role requiredRoles = RedirectToLogin) /\
  (forall role roles,
      includes roles role = false ->
      guard false true role (Some roles) = RedirectToUnauthorized) /\
  (forall role roles,
      includes roles role = true -> guard false true role (Some roles) = Render) /\
  (forall role, guard false true role None = Render) /\
  (forall roles r, includes roles (Some (VStr r)) = true <-> r ∈ roles) /\
  guard false true (Some (VStr "organizador")) (Some ["admin"]) = RedirectToUnauthorized /\
  guard false true (Some (VStr "admin")) (Some ["admin"]) = Render.
Proof.
  split; [reflexivity |]. split; [reflexivity |]. split; [reflexivity |].
  split; [intros role roles Hout; cbn; by rewrite Hout |].
  split; [intros role roles Hin; cbn; by rewrite Hin |].
  split; [reflexivity |].
  split; [intros roles r; cbn; apply bool_decide_eq_true |].
  split; reflexivity.
Qed.

Lemma route_guard_decides_witness :
  let organizer :=
    value (with_isLoading false
             (with_user (Some Sample.stored) (initial Sample.store Sample.now))) in
  includes ["admin"] (ctx_user organizer ≫= lookup "role") = false /\
  ProtectedRoute (Some ["admin"]) organizer = RedirectToUnauthorized /\
  (fun route => ProtectedRoute (snd route) organizer) <$> protected_routes
  = [Render; Render; RedirectToUnauthorized].
Proof.
  intros organizer. split; [reflexivity |]. split; [| reflexivity].
  destruct (route_guard_decides (Some ["admin"]) organizer)
    as (-> & _ & _ & Hout & _).
  by apply Hout.
Defined.



(** * More facts *)

(** ** The message table, read backwards *)

Lemma known_codes_cases code :
  code ∈ known_codes ->
  code = "auth/invalid-email" \/ code = "auth/user-disabled" \/
  code = "auth/user-not-found" \/ code = "auth/wrong-password" \/
  code = "auth/too-many-requests" \/ code = "auth/network-request-failed" \/
  code = "auth/internal-error".
Proof. unfold known_codes. rewrite !elem_of_cons, elem_of_nil. tauto. Qed.

(** X1.  Each known code has a message of its own, and the generic message is the
    answer for the unknown codes only: a code is unknown as soon as it differs
    from the seven by a letter, a capital, or the missing [auth/]. *)
Theorem getErrorMessage_tells_codes_apart :
  (forall code, getErrorMessage code = generic_message <-> code ∉ known_codes) /\
  (forall code1 code2,
      code1 ∈ known_codes -> code2 ∈ known_codes ->
      getErrorMessage code1 = getErrorMessage code2 -> code1 = code2) /\
  getErrorMessage "wrong-password" = generic_message /\
  getErrorMessage "AUTH/WRONG-PASSWORD" = generic_message /\
  getErrorMessage "" = generic_message.
Proof.
  split; [| split; [| repeat split]].
  - intros code. split; [| apply getErrorMessage_default].
    intros Hgeneric Hknown. apply known_codes_cases in Hknown.
    repeat (destruct Hknown as [-> | Hknown]; [discriminate Hgeneric |]).
    subst code. discriminate Hgeneric.
  - intros code1 code2 H1 H2. apply known_codes_cases in H1, H2.
    repeat (destruct H1 as [-> | H1]);
      repeat (destruct H2 as [-> | H2]); subst; (reflexivity || discriminate).
Qed.

Lemma getErrorMessage_tells_codes_apart_witness :
  "auth/invalid-email" ∈ known_codes /\ "auth/user-disabled" ∈ known_codes /\
  getErrorMessage "auth/invalid-email" <> getErrorMessage "auth/user-disabled".
Proof.
  assert (H1 : "auth/invalid-email" ∈ known_codes) by (unfold known_codes; rewrite !elem_of_cons; auto).
  assert (H2 : "auth/user-disabled" ∈ known_codes) by (unfold known_codes; rewrite !elem_of_cons; auto).
  split; [done |]. split; [done |]. intros Heq.
  pose proof (proj1 (proj2 getErrorMessage_tells_codes_apart) _ _ H1 H2 Heq) as Hsame.
  discriminate Hsame.
Defined.

(** ** Single calls, the remaining cases *)

Section MoreCalls.

Variable idp : string -> string -> thrown + FirebaseUser.

Lemma exec_untouched {A} (p : Prog A) w outcomes :
  untouched p -> isLoading (fst (exec idp p w outcomes)) = isLoading w.
Proof.
  revert w outcomes. induction p as [a|e|X eff k IH]; intros w outcomes Hp; [done | done |].
  destruct Hp as [Heff Hk]. cbn [exec]. destruct (is_async eff).
  - pose proof (perform_isLoading idp eff w (mjoin (head outcomes)) Heff) as Hsame.
    destruct (perform idp eff w (mjoin (head outcomes))) as [w1 r]. cbn [fst] in Hsame.
    rewrite IH by apply Hk. done.
  - pose proof (perform_isLoading idp eff w None Heff) as Hsame.
    destruct (perform idp eff w None) as [w1 r]. cbn [fst] in Hsame.
    rewrite IH by apply Hk. done.
Qed.

(** [createUserDocument], the two ways it can go. *)
Lemma createUserDocument_fulfilled firebaseUser w outcomes :
  exec idp (createUserDocument firebaseUser) w (None :: outcomes)
  = (with_users (upsert (uid firebaseUser) (basicUser firebaseUser (clock w)) (users w)) w,
     inr (basicUser firebaseUser (clock w))).
Proof. reflexivity. Qed.

Lemma createUserDocument_rejected firebaseUser w e outcomes :
  exec idp (createUserDocument firebaseUser) w (Some e :: outcomes)
  = (with_console (console w ++ [("Error creating user document:", e)]) w, inl e).
Proof. reflexivity. Qed.

(** A [login] that returns has published the profile of the principal the
    provider answered with, and has logged nothing. *)
Lemma login_success_trace email password w outcomes w' :
  exec idp (login email password) w outcomes = (w', inr tt) ->
  exists firebaseUser,
    idp email password = inr firebaseUser /\
    w' = match users w !! uid firebaseUser with
         | Some data => with_user (Some (spread_user firebaseUser data)) w
         | None =>
             with_user (Some (basicUser firebaseUser (clock w)))
               (with_users (<[uid firebaseUser := basicUser firebaseUser (clock w)]> (users w)) w)
         end.
Proof.
  unfold login, createUserDocument. run_call. settle_next; [intros [=] |].
  destruct (idp email password) as [e1|userCredential]; run_call; [intros [=] |].
  settle_next; [intros [=] |].
  destruct (users w !! uid userCredential) as [data|] eqn:Hdoc; run_call.
  - intros [= <-]. exists userCredential. by rewrite Hdoc.
  - settle_next; [intros [=] |]. intros [= <-]. exists userCredential.
    rewrite Hdoc. by rewrite upsert_new.
Qed.

Lemma store_step_login email password w outcomes :
  store_step w (fst (exec idp (login email password) w outcomes)).
Proof.
  destruct (exec idp (login email password) w outcomes) as [w' [e|[]]] eqn:Hrun.
  - left. by destruct (login_failure_trace idp _ _ _ _ _ _ Hrun) as (_ & _ & Hstore & _).
  - destruct (login_success_trace _ _ _ _ _ Hrun) as (firebaseUser & _ & ->). cbn [fst].
    destruct (users w !! uid firebaseUser) as [data|] eqn:Hdoc; [by left |].
    right. by exists firebaseUser.
Qed.

Lemma store_step_listener change w outcomes :
  store_step w (fst (exec idp (onAuthStateChanged change) w outcomes)).
Proof.
  unfold onAuthStateChanged, resolve_profile, createUserDocument.
  destruct change as [firebaseUser|]; run_call; [| by left].
  settle_next; [by left |].
  destruct (users w !! uid firebaseUser) as [data|] eqn:Hdoc; run_call; [by left |].
  settle_next; [by left |]. right. exists firebaseUser. by rewrite upsert_new.
Qed.

Lemma store_step_logout w outcomes : store_step w (fst (exec idp logout w outcomes)).
Proof. unfold logout. run_call. settle_next; by left. Qed.

Lemma store_step_keeps w w' key data :
  store_step w w' -> users w !! key = Some data -> users w' !! key = Some data.
Proof.
  intros [-> | (firebaseUser & Hnew & ->)] Hdoc; [done |].
  rewrite lookup_insert_ne; [done |]. intros <-. congruence.
Qed.

End MoreCalls.

Lemma spread_user_basicUser firebaseUser createdAt :
  spread_user firebaseUser (basicUser firebaseUser createdAt)
  = basicUser firebaseUser createdAt.
Proof.
  apply map_eq. intros field. unfold spread_user. rewrite lookup_union.
  destruct (decide (field = "id")) as [-> | Hid]; [reflexivity |].
  destruct (decide (field = "email")) as [-> | Hemail]; [reflexivity |].
  cbn [list_to_map foldr]. rewrite !lookup_insert_ne, lookup_empty by done.
  by destruct (basicUser firebaseUser createdAt !! field).
Qed.

Lemma basicUser_keys_dom firebaseUser createdAt field :
  field ∈ basicUser_keys <-> is_Some (basicUser firebaseUser createdAt !! field).
Proof.
  rewrite <- elem_of_dom, basicUser_dom. unfold basicUser_keys.
  by rewrite elem_of_list_to_set.
Qed.

(** X2.  A [login] that returns has been accepted by the
    provider, has published the stored document of that principal (with [id]
    and [email] filled in) or, when there was none, the new profile it wrote,
    and has left [isLoading], the console and the clock as they were. *)
Theorem login_success_publishes idp email password w outcomes w' :
  exec idp (login email password) w outcomes = (w', inr tt) ->
  exists firebaseUser,
    idp email password = inr firebaseUser /\
    isAuthenticated (value w') = true /\
    user w' = Some match users w !! uid firebaseUser with
                   | Some data => spread_user firebaseUser data
                   | None => basicUser firebaseUser (clock w)
                   end /\
    users w' = match users w !! uid firebaseUser with
               | Some data => users w
               | None => <[uid firebaseUser := basicUser firebaseUser (clock w)]> (users w)
               end /\
    isLoading w' = isLoading w /\ console w' = console w /\ clock w' = clock w.
Proof.
  intros Hrun. destruct (login_success_trace idp _ _ _ _ _ Hrun) as (firebaseUser & Hok & ->).
  exists firebaseUser. split; [done |].
  by destruct (users w !! uid firebaseUser).
Qed.

Lemma login_success_publishes_witness :
  let w := initial Sample.empty_store Sample.now in
  let r := exec Sample.provider (login "new@x.com" "Secret123") w [] in
  snd r = inr tt /\
  exists firebaseUser,
    Sample.provider "new@x.com" "Secret123" = inr firebaseUser /\
    isAuthenticated (value (fst r)) = true.
Proof.
  intros w r. split; [reflexivity |].
  destruct (login_success_publishes Sample.provider "new@x.com" "Secret123" w []
              (fst r) eq_refl) as (firebaseUser & Hok & Hauth & _).
  by exists firebaseUser.
Defined.

(** X3.  However their awaits settle, [login],
    [logout] and [createUserDocument] leave [isLoading] as it was: a call made
    while the application is loading does not end the loading. *)
Theorem calls_leave_isLoading idp w outcomes :
  (forall email password,
      isLoading (fst (exec idp (login email password) w outcomes)) = isLoading w) /\
  isLoading (fst (exec idp logout w outcomes)) = isLoading w /\
  (forall firebaseUser,
      isLoading (fst (exec idp (createUserDocument firebaseUser) w outcomes)) = isLoading w).
Proof.
  split; [intros; apply exec_untouched, untouched_login |].
  split; [apply exec_untouched, untouched_logout |].
  intros firebaseUser. apply exec_untouched. by apply every_effect_createUserDocument.
Qed.

(** X5.  After a [login] that returned, the run of
    the listener for the same principal, when its read succeeds, publishes the
    same user again and changes nothing but [isLoading]. *)
Theorem listener_after_login_republishes idp email password w outcomes w1 :
  exec idp (login email password) w outcomes = (w1, inr tt) ->
  exists firebaseUser,
    idp email password = inr firebaseUser /\
    forall later,
      exec idp (onAuthStateChanged (Some firebaseUser)) w1 (None :: later)
      = (with_isLoading false w1, inr tt).
Proof.
  intros Hrun. destruct (login_success_trace idp _ _ _ _ _ Hrun) as (firebaseUser & Hok & ->).
  exists firebaseUser. split; [done |]. intros later.
  destruct (users w !! uid firebaseUser) as [data|] eqn:Hdoc.
  - by rewrite (listener_existing idp firebaseUser data).
  - rewrite (listener_existing idp firebaseUser (basicUser firebaseUser (clock w)))
      by apply lookup_insert_eq.
    by rewrite spread_user_basicUser.
Qed.

Lemma listener_after_login_republishes_witness :
  let w := initial Sample.empty_store Sample.now in
  let w1 := fst (exec Sample.provider (login "new@x.com" "Secret123") w []) in
  exec Sample.provider (login "new@x.com" "Secret123") w [] = (w1, inr tt) /\
  user (fst (exec Sample.provider (onAuthStateChanged (Some Sample.u123)) w1 [None]))
  = user w1.
Proof.
  intros w w1. split; [reflexivity |].
  destruct (listener_after_login_republishes Sample.provider "new@x.com" "Secret123" w []
              w1 eq_refl) as (firebaseUser & Hok & Hagain).
  injection Hok as <-. by rewrite Hagain.
Defined.

(** X6.  A [logout] that succeeds after a [login] that
    returned leaves no user, [isAuthenticated] false, and the store as the
    login left it, the document of the principal included. *)
Theorem logout_after_login_keeps_document idp email password w outcomes w1 later :
  exec idp (login email password) w outcomes = (w1, inr tt) ->
  let w2 := fst (exec idp logout w1 (None :: later)) in
  value w2 = value (with_user None w) /\
  users w2 = users w1 /\
  exists firebaseUser,
    idp email password = inr firebaseUser /\ is_Some (users w2 !! uid firebaseUser).
Proof.
  intros Hrun w2. destruct (login_success_trace idp _ _ _ _ _ Hrun) as (firebaseUser & Hok & ->).
  subst w2. cbn. split; [| split; [done |]].
  - by destruct (users w !! uid firebaseUser).
  - exists firebaseUser. split; [done |].
    destruct (users w !! uid firebaseUser) as [data|] eqn:Hdoc; cbn.
    + by rewrite Hdoc.
    + by rewrite lookup_insert_eq.
Qed.

Lemma logout_after_login_keeps_document_witness :
  let w := initial Sample.empty_store Sample.now in
  let w1 := fst (exec Sample.provider (login "new@x.com" "Secret123") w []) in
  let w2 := fst (exec Sample.provider logout w1 [None]) in
  exec Sample.provider (login "new@x.com" "Secret123") w [] = (w1, inr tt) /\
  user w2 = None /\ users w2 = users w1.
Proof.
  intros w w1 w2. split; [reflexivity |]. split; [reflexivity |].
  apply (logout_after_login_keeps_document Sample.provider "new@x.com" "Secret123" w []
           w1 [] eq_refl).
Defined.

(** X7.  [createUserDocument] does not look whether a
    document exists.  When its write succeeds, the document under the id has
    the nine fields of the new profile with their new values and keeps every
    other field it had; every other document is as before; and the profile
    returned is the new one, without the fields that were kept.  When its
    write fails, it logs the error and throws the same error, and the store is
    as before. *)
Theorem createUserDocument_merges idp firebaseUser w outcomes :
  let profile := basicUser firebaseUser (clock w) in
  let r := exec idp (createUserDocument firebaseUser) w (None :: outcomes) in
  snd r = inr profile /\
  (exists written,
      users (fst r) !! uid firebaseUser = Some written /\
      (forall field, field ∈ basicUser_keys -> written !! field = profile !! field) /\
      (forall field, field ∉ basicUser_keys ->
                     written !! field = (users w !! uid firebaseUser) ≫= lookup field)) /\
  (forall key, key <> uid firebaseUser -> users (fst r) !! key = users w !! key) /\
  user (fst r) = user w /\
  (forall e,
      exec idp (createUserDocument firebaseUser) w (Some e :: outcomes)
      = (with_console (console w ++ [("Error creating user document:", e)]) w, inl e)).
Proof.
  intros profile r. subst r. rewrite createUserDocument_fulfilled. cbn [fst snd users with_users].
  split; [done |]. split; [| split; [| split; [done | intros; apply createUserDocument_rejected]]].
  - exists (profile ∪ default ∅ (users w !! uid firebaseUser)).
    split; [apply upsert_lookup |]. split.
    + intros field Hfield. apply (basicUser_keys_dom firebaseUser (clock w)) in Hfield.
      destruct Hfield as [v Hv]. fold profile in Hv. rewrite Hv.
      by apply lookup_union_Some_l.
    + intros field Hfield. rewrite lookup_union_r.
      * destruct (users w !! uid firebaseUser); [done | apply lookup_empty].
      * destruct (profile !! field) as [v|] eqn:Hv; [| done].
        exfalso. apply Hfield. apply (basicUser_keys_dom firebaseUser (clock w)). by exists v.
  - intros key Hkey. unfold upsert. by rewrite lookup_insert_ne.
Qed.

Lemma createUserDocument_merges_witness :
  let existing : JsObject := <["avatar" := VStr "a.png"]> Sample.stored in
  let w := initial {[ "u123" := existing ]} Sample.now in
  let r := exec Sample.provider (createUserDocument Sample.u123) w [None] in
  ("avatar" ∉ basicUser_keys) /\ ("role" ∈ basicUser_keys) /\
  existing !! "role" = Some (VStr "organizador") /\
  exists written,
    users (fst r) !! "u123" = Some written /\
    written !! "role" = Some (VStr "usuario") /\
    written !! "avatar" = Some (VStr "a.png").
Proof.
  intros existing w r.
  assert (Hout : "avatar" ∉ basicUser_keys).
  { unfold basicUser_keys. rewrite !not_elem_of_cons. repeat split; try done.
    apply not_elem_of_nil. }
  assert (Hin : "role" ∈ basicUser_keys).
  { unfold basicUser_keys. rewrite !elem_of_cons. auto. }
  split; [done |]. split; [done |]. split; [reflexivity |].
  destruct (createUserDocument_merges Sample.provider Sample.u123 w [])
    as (_ & (written & Hwritten & Hnew & Hkept) & _).
  exists written. split; [done |]. split.
  - by rewrite (Hnew "role" Hin).
  - by rewrite (Hkept "avatar" Hout).
Defined.

(** ** The event loop and single calls *)

Section Refinement.

Variable idp : string -> string -> thrown + FirebaseUser.

Lemma park_new o w p st ps fin :
  park o None w p {| state := st; pending := ps; finished := fin |} = placed o w p ps fin.
Proof. by destruct p. Qed.

Lemma park_last o w p st ps fin entry :
  park o (Some (length ps)) w p
    {| state := st; pending := ps ++ [entry]; finished := fin |}
  = placed o w p ps fin.
Proof.
  destruct p as [a|e|X eff k]; unfold park, placed; cbn [pending finished from_option].
  - by rewrite delete_middle, app_nil_r.
  - by rewrite delete_middle, app_nil_r.
  - rewrite insert_app_r_alt by done. by rewrite Nat.sub_diag.
Qed.

Lemma run_idle slot outcomes m :
  length (pending m) <= slot -> run idp m (Settle slot <$> outcomes) = m.
Proof.
  intros Hpast. induction outcomes as [|failure outcomes IH]; [done |].
  unfold run in *. cbn [fmap list_fmap foldl step].
  by rewrite settle_idle.
Qed.

(** A call alone in the last slot, settled with the outcomes [exec] is given,
    ends in the state [exec] computes, with the result [exec] returns. *)
Lemma placed_run_exec (p : Prog unit) o w ps fin outcomes :
  awaits idp p w outcomes <= length outcomes ->
  run idp (placed o (fst (advance idp p w)) (snd (advance idp p w)) ps fin)
      (Settle (length ps) <$> outcomes)
  = {| state := fst (exec idp p w outcomes); pending := ps;
       finished := fin ++ [(o, snd (exec idp p w outcomes))] |}.
Proof.
  revert w outcomes. induction p as [a|e|X eff k IH]; intros w outcomes Hlen.
  - cbn. by rewrite run_idle.
  - cbn. by rewrite run_idle.
  - cbn [advance exec awaits] in *. destruct (is_async eff) eqn:Hasync.
    + destruct outcomes as [|failure outcomes].
      { destruct (perform idp eff w (mjoin (head []))); cbn in Hlen; lia. }
      cbn [head tail mjoin option_join fmap list_fmap] in *.
      change (mjoin (Some failure)) with failure in *.
      unfold run. cbn [fst snd placed foldl step]. unfold settle. cbn [pending state].
      rewrite list_lookup_middle by done.
      destruct (perform idp eff w failure) as [w1 r].
      specialize (IH r w1 outcomes). cbn [length] in Hlen.
      destruct (advance idp (k r) w1) as [w2 p2] eqn:Hrun. rewrite park_last.
      cbn [fst snd] in IH. apply IH. lia.
    + destruct (perform idp eff w None) as [w1 r]. by apply IH.
Qed.

Lemma spawn_placed o p m :
  spawn idp o p m
  = placed o (fst (advance idp p (state m))) (snd (advance idp p (state m)))
      (pending m) (finished m).
Proof.
  unfold spawn. destruct (advance idp p (state m)) as [w p']. destruct m. apply park_new.
Qed.

Lemma awaits_login email password w outcomes :
  awaits idp (login email password) w outcomes <= 3.
Proof.
  unfold login, createUserDocument. run_call. settle_next; [lia |].
  destruct (idp email password) as [e1|userCredential]; run_call; [lia |].
  settle_next; [lia |].
  destruct (users w !! uid userCredential) as [data|]; run_call; [lia |].
  settle_next; lia.
Qed.

Lemma awaits_logout w outcomes : awaits idp logout w outcomes <= 1.
Proof. unfold logout. run_call. settle_next; lia. Qed.

End Refinement.

(** X8.  A [login] or a [logout] started in the event
    loop, whose awaits settle before anything else happens, leaves the state
    that [exec] computes for the call alone, the other suspended calls where
    they were, and its result (returned, or the error thrown to the caller)
    recorded last. *)
Theorem calls_undisturbed idp m :
  let slot := length (pending m) in
  (forall email password o1 o2 o3,
      let r := exec idp (login email password) (state m) [o1; o2; o3] in
      run idp m [CallLogin email password; Settle slot o1; Settle slot o2; Settle slot o3]
      = {| state := fst r; pending := pending m;
           finished := finished m ++ [(LoginCall, snd r)] |}) /\
  (forall o1,
      let r := exec idp logout (state m) [o1] in
      run idp m [CallLogout; Settle slot o1]
      = {| state := fst r; pending := pending m;
           finished := finished m ++ [(LogoutCall, snd r)] |}).
Proof.
  intros slot. split.
  - intros email password o1 o2 o3 r. subst r slot.
    change (run idp m (CallLogin email password :: (Settle (length (pending m)) <$> [o1; o2; o3]))
            = {| state := fst (exec idp (login email password) (state m) [o1; o2; o3]);
                 pending := pending m;
                 finished := finished m ++
                   [(LoginCall, snd (exec idp (login email password) (state m) [o1; o2; o3]))] |}).
    unfold run. cbn [foldl step]. rewrite spawn_placed.
    apply placed_run_exec. apply awaits_login.
  - intros o1 r. subst r slot.
    change (run idp m (CallLogout :: (Settle (length (pending m)) <$> [o1]))
            = {| state := fst (exec idp logout (state m) [o1]);
                 pending := pending m;
                 finished := finished m ++ [(LogoutCall, snd (exec idp logout (state m) [o1]))] |}).
    unfold run. cbn [foldl step]. rewrite spawn_placed.
    apply placed_run_exec. pose proof (awaits_logout idp (state m) [o1]). cbn [length]. lia.
Qed.

(** X4.  A call of [login], of [logout] or of the listener that runs from its
    start to its end with nothing else in between, however its awaits settle,
    leaves the collection as it was or adds one document under an id that had
    none; [logout] leaves it as it was.  So a document that exists when such
    a call starts is not changed by it, be the call run alone or in the event
    loop with its awaits settling before anything else happens.  Calls that
    overlap are another matter, see [overlapping_first_sign_ins_rewrite]. *)
Theorem calls_keep_existing_documents idp w outcomes :
  (forall email password,
      store_step w (fst (exec idp (login email password) w outcomes))) /\
  (forall change,
      store_step w (fst (exec idp (onAuthStateChanged change) w outcomes))) /\
  users (fst (exec idp logout w outcomes)) = users w /\
  (forall key data,
      users w !! key = Some data ->
      (forall email password,
          users (fst (exec idp (login email password) w outcomes)) !! key = Some data) /\
      (forall change,
          users (fst (exec idp (onAuthStateChanged change) w outcomes)) !! key
          = Some data)) /\
  (forall m key data,
      users (state m) !! key = Some data ->
      let slot := length (pending m) in
      (forall email password o1 o2 o3,
          users (state (run idp m [CallLogin email password; Settle slot o1;
                                   Settle slot o2; Settle slot o3])) !! key
          = Some data) /\
      (forall change o1 o2,
          users (state (run idp m [AuthStateChanged change; Settle slot o1;
                                   Settle slot o2])) !! key
          = Some data) /\
      (forall o1,
          users (state (run idp m [CallLogout; Settle slot o1])) !! key = Some data)).
Proof.
  split; [intros; apply store_step_login |].
  split; [intros; apply store_step_listener |].
  assert (Hlogout : forall w' outcomes', users (fst (exec idp logout w' outcomes')) = users w').
  { intros w' outcomes'. unfold logout. run_call. by settle_next. }
  split; [apply Hlogout |]. split.
  - intros key data Hdoc. split.
    + intros email password. apply (store_step_keeps w); [apply store_step_login | done].
    + intros change. apply (store_step_keeps w); [apply store_step_listener | done].
  - intros m key data Hdoc slot. subst slot. split; [| split].
    + intros email password o1 o2 o3.
      change [CallLogin email password; Settle (length (pending m)) o1;
              Settle (length (pending m)) o2; Settle (length (pending m)) o3]
        with (CallLogin email password :: (Settle (length (pending m)) <$> [o1; o2; o3])).
      unfold run. cbn [foldl step]. rewrite spawn_placed.
      fold (run idp (placed LoginCall
                       (fst (advance idp (login email password) (state m)))
                       (snd (advance idp (login email password) (state m)))
                       (pending m) (finished m))
              (Settle (length (pending m)) <$> [o1; o2; o3])).
      rewrite placed_run_exec by apply awaits_login. cbn [state].
      apply (store_step_keeps (state m)); [apply store_step_login | done].
    + intros change o1 o2. rewrite resolution_undisturbed. cbn [state].
      apply (store_step_keeps (state m)); [apply store_step_listener | done].
    + intros o1.
      change [CallLogout; Settle (length (pending m)) o1]
        with (CallLogout :: (Settle (length (pending m)) <$> [o1])).
      unfold run. cbn [foldl step]. rewrite spawn_placed.
      fold (run idp (placed LogoutCall
                       (fst (advance idp logout (state m)))
                       (snd (advance idp logout (state m)))
                       (pending m) (finished m))
              (Settle (length (pending m)) <$> [o1])).
      rewrite placed_run_exec.
      * cbn [state]. by rewrite Hlogout.
      * pose proof (awaits_logout idp (state m) [o1]). cbn [length]. lia.
Qed.

Lemma calls_keep_existing_documents_witness :
  let w := initial Sample.store Sample.now in
  let m := boot Sample.store Sample.now in
  users w !! "u123" = Some Sample.stored /\
  users (fst (exec Sample.provider (login "new@x.com" "Secret123") w [])) !! "u123"
  = Some Sample.stored /\
  users (state (run Sample.provider m
                  [AuthStateChanged (Some Sample.u123); Settle 0 None; Settle 0 None]))
  !! "u123" = Some Sample.stored.
Proof.
  intros w m. split; [reflexivity |].
  destruct (calls_keep_existing_documents Sample.provider w []) as (_ & _ & _ & Halone & Hloop).
  split.
  - apply (Halone "u123" Sample.stored eq_refl).
  - apply (Hloop m "u123" Sample.stored eq_refl).
Defined.

(** A [login] and a run of the listener for the same new principal that
    overlap: the login finds no document and is about to write; the clock
    moves on; the listener finds no document either and is about to write;
    the login writes the profile; the listener's write, decided before, sets
    [createdAt] of the document anew. *)
Example overlapping_first_sign_ins_rewrite :
  let before :=
    run Sample.provider (boot Sample.empty_store Sample.now)
      [CallLogin "new@x.com" "Secret123"; Settle 0 None; Settle 0 None;
       AuthStateChanged (Some Sample.u123); Tick "2024-03-15T12:00:01.000Z";
       Settle 1 None; Settle 0 None] in
  let after := step Sample.provider before (Settle 0 None) in
  ((users (state before) !! "u123") ≫= lookup "createdAt") = Some (VStr Sample.now) /\
  length (pending before) = 1 /\
  ((users (state after) !! "u123") ≫= lookup "createdAt")
  = Some (VStr "2024-03-15T12:00:01.000Z") /\
  length (pending after) = 0.
Proof. repeat split. Qed.

(** ** What every run of the event loop keeps *)

Section Keeps.

Variable idp : string -> string -> thrown + FirebaseUser.
Context (φ : forall X, Eff X -> Prop) (I : world -> Prop).

Hypothesis perform_keeps :
  forall X (eff : Eff X) w failure, φ X eff -> I w -> I (fst (perform idp eff w failure)).
Hypothesis admin_keeps :
  forall key data w, I w -> I (with_users (<[key := data]> (users w)) w).
Hypothesis tick_keeps : forall now w, I w -> I (with_clock now w).
Hypothesis login_ok : forall email password, every_effect φ (login email password).
Hypothesis logout_ok : every_effect φ logout.
Hypothesis listener_ok : forall change, every_effect φ (onAuthStateChanged change).

Lemma advance_keeps {A} (p : Prog A) w :
  every_effect φ p -> I w ->
  I (fst (advance idp p w)) /\ every_effect φ (snd (advance idp p w)).
Proof.
  revert w. induction p as [a|e|X eff k IH]; intros w Hp Hw; [done | done |].
  cbn [advance]. destruct (is_async eff); [done |].
  destruct Hp as [Heff Hk]. pose proof (perform_keeps X eff w None Heff Hw) as Hw1.
  destruct (perform idp eff w None) as [w1 r]. by apply IH.
Qed.

Lemma park_keeps o slot w p m :
  kept φ I m -> I w -> every_effect φ p -> kept φ I (park o slot w p m).
Proof.
  intros [_ Hpending] Hw Hp.
  assert (Hrest : Forall (fun entry => every_effect φ (snd entry))
                    (from_option (fun i => delete i (pending m)) (pending m) slot)).
  { destruct slot as [i|]; [by apply Forall_delete | done]. }
  destruct p as [a|e|X eff k]; unfold park; split; cbn [state pending]; try done.
  destruct slot as [i|].
  - by apply Forall_insert.
  - apply Forall_app. split; [done |]. by constructor.
Qed.

Lemma spawn_keeps o p m : kept φ I m -> every_effect φ p -> kept φ I (spawn idp o p m).
Proof.
  intros Hm Hp. unfold spawn.
  destruct (advance_keeps p (state m) Hp (proj1 Hm)) as [Hw Hrest].
  destruct (advance idp p (state m)) as [w p']. by apply park_keeps.
Qed.

Lemma settle_keeps task failure m : kept φ I m -> kept φ I (settle idp task failure m).
Proof.
  intros Hm. unfold settle.
  destruct (pending m !! task) as [[o p]|] eqn:Htask; [| done].
  destruct p as [a|e|X eff k]; [done | done |].
  assert (Hp : every_effect φ (Do eff k)).
  { destruct Hm as [_ Hpending]. rewrite Forall_lookup in Hpending.
    apply (Hpending task (o, Do eff k) Htask). }
  destruct Hp as [Heff Hk].
  pose proof (perform_keeps X eff (state m) failure Heff (proj1 Hm)) as Hw1.
  destruct (perform idp eff (state m) failure) as [w1 r]. cbn [fst] in Hw1.
  destruct (advance_keeps (k r) w1 (Hk r) Hw1) as [Hw Hrest].
  destruct (advance idp (k r) w1) as [w p']. by apply park_keeps.
Qed.

Lemma step_keeps m l : kept φ I m -> kept φ I (step idp m l).
Proof.
  intros Hm. destruct l as [change|email password| |task failure|key data|now]; cbn [step].
  - by apply spawn_keeps.
  - by apply spawn_keeps.
  - by apply spawn_keeps.
  - by apply settle_keeps.
  - destruct Hm as [Hstate Hpending]. split; [by apply admin_keeps | done].
  - destruct Hm as [Hstate Hpending]. split; [by apply tick_keeps | done].
Qed.

Lemma run_keeps m ls : kept φ I m -> kept φ I (run idp m ls).
Proof.
  revert m. induction ls as [|l ls IH]; intros m Hm; [done |].
  apply IH. by apply step_keeps.
Qed.

End Keeps.

Lemma every_effect_any {A} (p : Prog A) : every_effect (fun _ _ => True) p.
Proof. induction p as [a|e|X eff k IH]; cbn; [done | done |]. by split. Qed.

Lemma perform_keeps_document {X} idp (eff : Eff X) w failure key :
  is_Some (users w !! key) -> is_Some (users (fst (perform idp eff w failure)) !! key).
Proof.
  intros Hdoc.
  destruct eff as [email password|k|k data| |u|b|msg e|]; destruct failure; try done.
  cbn. unfold upsert. destruct (decide (k = key)) as [-> | Hother].
  - rewrite lookup_insert_eq. by eexists.
  - by rewrite lookup_insert_ne.
Qed.

(** X9.  Through every run of the event loop, from any state
    of it: a document that is in the collection stays in the collection.
    Neither the listener nor [login] nor [logout] removes a document. *)
Theorem documents_are_never_removed idp m ls key :
  is_Some (users (state m) !! key) ->
  is_Some (users (state (run idp m ls)) !! key).
Proof.
  intros Hdoc.
  apply (run_keeps idp (fun _ _ => True) (fun w => is_Some (users w !! key))).
  - intros X eff w failure _. apply perform_keeps_document.
  - intros k data w Hw. cbn. destruct (decide (k = key)) as [-> | Hother].
    + rewrite lookup_insert_eq. by eexists.
    + by rewrite lookup_insert_ne.
  - done.
  - intros. apply every_effect_any.
  - apply every_effect_any.
  - intros. apply every_effect_any.
  - split; [done |]. apply Forall_forall. intros entry _. apply every_effect_any.
Qed.

Lemma documents_are_never_removed_witness :
  let m := boot Sample.store Sample.now in
  let ls := [AuthStateChanged (Some Sample.u123); CallLogout; Settle 1 None;
             Settle 0 (Some Sample.plain_error)] in
  is_Some (users (state m) !! "u123") /\
  is_Some (users (state (run Sample.provider m ls)) !! "u123").
Proof.
  intros m ls. assert (Hdoc : is_Some (users (state m) !! "u123")) by by eexists.
  split; [done |]. by apply (documents_are_never_removed Sample.provider m ls "u123").
Defined.

Lemma has_identity_basicUser firebaseUser createdAt :
  has_identity (basicUser firebaseUser createdAt).
Proof. split; by eexists. Qed.

Lemma has_identity_spread_user firebaseUser (data : JsObject) :
  has_identity (spread_user firebaseUser data).
Proof.
  split.
  - destruct (data !! "id") as [v|] eqn:Hid.
    + exists v. by apply spread_user_stored.
    + rewrite spread_user_absent by done. by eexists.
  - destruct (data !! "email") as [v|] eqn:Hemail.
    + exists v. by apply spread_user_stored.
    + rewrite spread_user_absent by done. by eexists.
Qed.

Ltac walk_program :=
  repeat (cbn -[basicUser spread_user has_identity];
          first [ done
                | apply has_identity_basicUser
                | apply has_identity_spread_user
                | split
                | intros [?|[?|]]
                | intros [?|?] ]).

Lemma publishes_identity_login email password :
  every_effect (@publishes_identity) (login email password).
Proof. unfold login, createUserDocument. walk_program. Qed.

Lemma publishes_identity_listener change :
  every_effect (@publishes_identity) (onAuthStateChanged change).
Proof.
  unfold onAuthStateChanged, resolve_profile, createUserDocument.
  destruct change as [firebaseUser|]; walk_program.
Qed.

Lemma publishes_identity_logout : every_effect (@publishes_identity) logout.
Proof. unfold logout. walk_program. Qed.

Lemma perform_keeps_identity {X} idp (eff : Eff X) w failure :
  publishes_identity eff -> user_has_identity w ->
  user_has_identity (fst (perform idp eff w failure)).
Proof.
  unfold user_has_identity. intros Heff Hw.
  destruct eff as [email password|k|k data| |u|b|msg e|]; destruct failure; try done;
    by destruct u.
Qed.

(** X10.  In every state the event loop reaches, the
    published user, when there is one, has an [id] and an [email] field:
    they come from the stored document when it has them and from the provider
    otherwise. *)
Theorem published_user_has_identity idp store now ls u :
  user (state (run idp (boot store now) ls)) = Some u -> has_identity u.
Proof.
  intros Huser.
  assert (Hkept : kept (@publishes_identity) user_has_identity
                    (run idp (boot store now) ls)).
  { apply run_keeps.
    - intros X eff w failure. apply perform_keeps_identity.
    - done.
    - done.
    - apply publishes_identity_login.
    - apply publishes_identity_logout.
    - apply publishes_identity_listener.
    - split; [done | constructor]. }
  destruct Hkept as [Hstate _]. unfold user_has_identity in Hstate. by rewrite Huser in Hstate.
Qed.

Lemma published_user_has_identity_witness :
  let m := run Sample.provider (boot Sample.store Sample.now)
             [CallLogin "new@x.com" "Secret123"; Settle 0 None; Settle 0 None] in
  user (state m) = Some (spread_user Sample.u123 Sample.stored) /\
  has_identity (spread_user Sample.u123 Sample.stored).
Proof.
  intros m. assert (Huser : user (state m) = Some (spread_user Sample.u123 Sample.stored))
    by reflexivity.
  split; [done |].
  by apply (published_user_has_identity Sample.provider Sample.store Sample.now
              [CallLogin "new@x.com" "Secret123"; Settle 0 None; Settle 0 None]).
Defined.

(** ** The users page *)

Section UsersPageFacts.

Import UsersPage.

Variable encodeURIComponent : option JsValue -> thrown + string.

Lemma newUser_forced formData timestamp iso encodedName :
  let u := newUser formData timestamp iso encodedName in
  u !! "createdAt" = Some (VStr iso) /\
  u !! "status" = Some (VStr "ativo") /\
  u !! "avatar" = Some (VStr ("https://ui-avatars.com/api/?name=" ++ encodedName
                              ++ "&background=random")).
Proof. repeat split; unfold newUser; by apply lookup_union_Some_l. Qed.

Lemma newUser_other formData timestamp iso encodedName field :
  field <> "createdAt" -> field <> "status" -> field <> "avatar" ->
  newUser formData timestamp iso encodedName !! field
  = (formData ∪ {[ "id" := VStr timestamp ]}) !! field.
Proof.
  intros Hcreated Hstatus Havatar. unfold newUser. apply lookup_union_r.
  cbn [list_to_map foldr]. by rewrite !lookup_insert_ne, lookup_empty.
Qed.

Lemma users_acts_sublist st actions :
  users (acts encodeURIComponent st actions)
  `sublist_of` (users st ++ submitted encodeURIComponent actions)%list.
Proof.
  revert st. induction actions as [|a actions IH]; intros st.
  - unfold submitted. cbn. by rewrite app_nil_r.
  - unfold acts in *. cbn [foldl]. etrans; [apply IH |].
    unfold submitted. rewrite bind_cons. fold (submitted encodeURIComponent actions).
    destruct a as [|user|formData timestamp iso| |userId confirmed]; cbn [act]; try done.
    + unfold handleCreateUser.
      destruct (encodeURIComponent (formData !! "name")) as [e|encodedName]; [done |].
      cbn [users]. by rewrite <- app_assoc.
    + unfold handleDeleteUser. destruct confirmed; [| done]. cbn [users app].
      apply sublist_app; [apply sublist_filter | done].
Qed.

Lemma filter_all {A} (P : A -> Prop) `{!forall x, Decision (P x)} (l : list A) :
  (forall x, x ∈ l -> P x) -> filter P l = l.
Proof.
  induction l as [|x l IH]; intros Hall; [done |].
  rewrite filter_cons. rewrite decide_True by (apply Hall; left).
  f_equal. apply IH. intros y Hy. apply Hall. by right.
Qed.

(** X13.  [handleCreateUser] adds one user at the end of the
    list and closes the form; the users that were there are as before.  The
    new user has [status] "ativo", the current time as [createdAt] and the
    avatar address built from the encoded name, whatever the form data say
    about these three; its [id] is the one in the form data when they have
    one, and the timestamp otherwise; every other field is the form's.  When
    the name cannot be encoded, the handler throws and the state stays. *)
Theorem handleCreateUser_appends formData timestamp iso st :
  match encodeURIComponent (formData !! "name") with
  | inl e => handleCreateUser encodeURIComponent formData timestamp iso st = inl e
  | inr encodedName =>
      exists u,
        handleCreateUser encodeURIComponent formData timestamp iso st
        = inr {| users := users st ++ [u]; showForm := false;
                 selectedUser := selectedUser st |} /\
        u !! "createdAt" = Some (VStr iso) /\
        u !! "status" = Some (VStr "ativo") /\
        u !! "avatar" = Some (VStr ("https://ui-avatars.com/api/?name=" ++ encodedName
                                    ++ "&background=random")) /\
        u !! "id" = Some (default (VStr timestamp) (formData !! "id")) /\
        (forall field,
            field ∉ ["id"; "createdAt"; "status"; "avatar"] ->
            u !! field = formData !! field)
  end.
Proof.
  unfold handleCreateUser.
  destruct (encodeURIComponent (formData !! "name")) as [e|encodedName]; [done |].
  exists (newUser formData timestamp iso encodedName).
  destruct (newUser_forced formData timestamp iso encodedName) as (Hcreated & Hstatus & Havatar).
  split; [done |]. split; [done |]. split; [done |]. split; [done |]. split.
  - rewrite newUser_other by done. rewrite lookup_union.
    rewrite lookup_singleton_eq. by destruct (formData !! "id").
  - intros field Hfield. rewrite !not_elem_of_cons in Hfield.
    destruct Hfield as (Hid & Hcreated' & Hstatus' & Havatar' & _).
    rewrite newUser_other by done. apply lookup_union_l.
    by rewrite lookup_singleton_ne.
Qed.

(** X14.  Whatever is done on the page, the list of
    users is made of users that were there at the start and of users built by
    a submission of the form, in that order, each as it was when it entered
    the list: no handler changes a user in place.  In particular the form
    opened by [handleEditUser] submits to [handleCreateUser]: the user chosen
    for editing stays as it was and a further user is added. *)
Theorem users_are_never_edited st actions :
  users (acts encodeURIComponent st actions)
  `sublist_of` (users st ++ submitted encodeURIComponent actions)%list /\
  (forall u,
      u ∈ users (acts encodeURIComponent st actions) ->
      u ∈ users st \/ u ∈ submitted encodeURIComponent actions) /\
  (forall user formData timestamp iso encodedName,
      encodeURIComponent (formData !! "name") = inr encodedName ->
      users (acts encodeURIComponent st [Edit user; Submit formData timestamp iso])
      = (users st ++ [newUser formData timestamp iso encodedName])%list).
Proof.
  split; [apply users_acts_sublist |]. split.
  - intros u Hu. apply elem_of_app.
    apply (elem_of_sublist _ _ _ Hu), users_acts_sublist.
  - intros user formData timestamp iso encodedName Hname.
    unfold acts. cbn [foldl act]. unfold handleCreateUser. by rewrite Hname.
Qed.

(** X15.  When the confirmation is declined nothing changes.
    When it is given, the users whose [id] is the given one are removed, all
    of them, and the others stay, in their order; the form and the selected
    user are not touched; deleting again changes nothing. *)
Theorem handleDeleteUser_removes userId st :
  handleDeleteUser userId false st = st /\
  let st' := handleDeleteUser userId true st in
  (forall u, u ∈ users st' <-> u ∈ users st /\ u !! "id" <> userId) /\
  users st' `sublist_of` users st /\
  showForm st' = showForm st /\ selectedUser st' = selectedUser st /\
  handleDeleteUser userId true st' = st'.
Proof.
  split; [done |]. cbn. split; [| split; [| split; [| split]]]; try done.
  - intros u. rewrite list_elem_of_filter. tauto.
  - apply sublist_filter.
  - unfold handleDeleteUser. cbn. f_equal. apply filter_all.
    intros u Hu. by apply list_elem_of_filter in Hu as [Hid _].
Qed.

(** X16.  Deleting the user that a submission has just
    added, by its [id], gives back the list of before when no user there had
    that [id]. *)
Theorem delete_undoes_create formData timestamp iso encodedName st :
  encodeURIComponent (formData !! "name") = inr encodedName ->
  let u := newUser formData timestamp iso encodedName in
  (forall earlier, earlier ∈ users st -> earlier !! "id" <> u !! "id") ->
  exists st1,
    handleCreateUser encodeURIComponent formData timestamp iso st = inr st1 /\
    users (handleDeleteUser (u !! "id") true st1) = users st.
Proof.
  intros Hname u Hfresh. unfold handleCreateUser. rewrite Hname. eexists. split; [done |].
  cbn. rewrite filter_app, filter_all by done.
  rewrite filter_cons, decide_False by (intros Hne; by apply Hne).
  by rewrite filter_nil, app_nil_r.
Qed.

End UsersPageFacts.

(** ** The registration form *)

Section RegisterFormFacts.

Import RegisterForm.

Lemma test_seq_lookahead (p q : matcher) s :
  test (seq (lookahead p) q) s = test p s && test q s.
Proof.
  unfold test, seq, lookahead. destruct (p s) as [|rest rests]; [done |].
  cbn. by rewrite app_nil_r.
Qed.

Lemma test_lookahead (p : matcher) s : test (lookahead p) s = test p s.
Proof. unfold test, lookahead. by destruct (p s). Qed.

Lemma test_app {A} (l1 l2 : list A) :
  match (l1 ++ l2)%list with [] => false | _ => true end
  = match l1 with [] => false | _ => true end
    || match l2 with [] => false | _ => true end.
Proof. destruct l1; [by destruct l2 | done]. Qed.

(** [.*] followed by one character of a class that has no line terminator
    matches at the start of [s] when the first line of [s] has a character of
    the class. *)
Lemma test_dot_star_class cls s :
  (forall c, is_line_terminator c = true -> cls c = false) ->
  test (seq dot_star (class cls)) s = existsb cls (first_line s).
Proof.
  intros Hcls. unfold test, seq. induction s as [|c rest IH]; [done |].
  cbn [dot_star first_line]. destruct (is_line_terminator c) eqn:Hterm.
  - cbn. by rewrite (Hcls c Hterm).
  - rewrite bind_app, test_app, IH. cbn. rewrite app_nil_r, orb_comm.
    by destruct (cls c).
Qed.

Lemma terminator_not_lower c : is_line_terminator c = true -> lower c = false.
Proof.
  unfold is_line_terminator. rewrite !orb_true_iff, !N.eqb_eq.
  by intros [[[-> | ->] | ->] | ->].
Qed.

Lemma terminator_not_upper c : is_line_terminator c = true -> upper c = false.
Proof.
  unfold is_line_terminator. rewrite !orb_true_iff, !N.eqb_eq.
  by intros [[[-> | ->] | ->] | ->].
Qed.

Lemma terminator_not_digit c : is_line_terminator c = true -> digit c = false.
Proof.
  unfold is_line_terminator. rewrite !orb_true_iff, !N.eqb_eq.
  by intros [[[-> | ->] | ->] | ->].
Qed.

Lemma first_line_all s :
  (forall c, c ∈ s -> is_line_terminator c = false) -> first_line s = s.
Proof.
  induction s as [|c rest IH]; intros Hnone; [done |]. cbn.
  rewrite (Hnone c) by left. f_equal. apply IH. intros c' Hc'. apply Hnone. by right.
Qed.

Lemma first_line_break before terminator after :
  (forall c, c ∈ before -> is_line_terminator c = false) ->
  is_line_terminator terminator = true ->
  first_line (before ++ terminator :: after) = before.
Proof.
  intros Hnone Hterm. induction before as [|c rest IH]; cbn.
  - by rewrite Hterm.
  - rewrite (Hnone c) by left. f_equal. apply IH. intros c' Hc'. apply Hnone. by right.
Qed.

(** X17.  The pattern accepts a password when its first
    line (the part before the first line break) has a lower-case letter, an
    upper-case letter and a digit, all three of ASCII; what follows a line
    break does not count.  For a password without line break this is the
    whole password. *)
Theorem password_pattern_first_line s :
  test password_pattern s
  = existsb lower (first_line s) && existsb upper (first_line s)
    && existsb digit (first_line s) /\
  ((forall c, c ∈ s -> is_line_terminator c = false) -> first_line s = s) /\
  (forall before terminator after,
      s = (before ++ terminator :: after)%list ->
      (forall c, c ∈ before -> is_line_terminator c = false) ->
      is_line_terminator terminator = true ->
      test password_pattern s
      = existsb lower before && existsb upper before && existsb digit before).
Proof.
  assert (Htest : forall s', test password_pattern s'
                  = existsb lower (first_line s') && existsb upper (first_line s')
                    && existsb digit (first_line s')).
  { intros s'. unfold password_pattern.
    rewrite !test_seq_lookahead, test_lookahead.
    rewrite !test_dot_star_class
      by first [apply terminator_not_lower | apply terminator_not_upper
               | apply terminator_not_digit].
    by rewrite andb_assoc. }
  split; [apply Htest |]. split; [apply first_line_all |].
  intros before terminator after -> Hnone Hterm.
  by rewrite Htest, first_line_break.
Qed.

(** [Abcdefg], a line feed, [1]: the digit comes after the line break. *)
Lemma password_pattern_first_line_witness :
  let s := [65; 98; 99; 100; 101; 102; 103; 10; 49]%N in
  test password_pattern s = false /\
  test password_pattern [65; 98; 99; 100; 101; 102; 103; 49]%N = true.
Proof.
  intros s. split; [| reflexivity].
  rewrite (proj2 (proj2 (password_pattern_first_line s))
             [65; 98; 99; 100; 101; 102; 103]%N 10%N [49]%N eq_refl).
  - reflexivity.
  - intros c Hc. rewrite !elem_of_cons, elem_of_nil in Hc.
    repeat (destruct Hc as [-> | Hc]; [reflexivity |]). done.
  - reflexivity.
Defined.

Variable email_format : text -> bool.

(** X18.  The form data pass the schema exactly when
    every field is within its bounds, the address has the format zod tests,
    the password matches the pattern, and the confirmation is the password
    itself.  So the confirmation, which has no rule of its own, then satisfies
    all the rules of the password. *)
Theorem schema_ok_accepts data :
  (schema_ok email_format data = true <->
   (2 <= length (name data) <= 50) /\
   (email_format (email data) = true /\ 5 <= length (email data) <= 50) /\
   (8 <= length (password data) <= 50 /\ test password_pattern (password data) = true) /\
   (10 <= length (phone data) <= 15) /\
   (2 <= length (location data) <= 100) /\
   confirmPassword data = password data) /\
  (schema_ok email_format data = true ->
   password_ok (confirmPassword data) = true /\
   existsb lower (first_line (confirmPassword data)) = true /\
   existsb upper (first_line (confirmPassword data)) = true /\
   existsb digit (first_line (confirmPassword data)) = true).
Proof.
  assert (Hiff : schema_ok email_format data = true <->
     (2 <= length (name data) <= 50) /\
     (email_format (email data) = true /\ 5 <= length (email data) <= 50) /\
     (8 <= length (password data) <= 50 /\ test password_pattern (password data) = true) /\
     (10 <= length (phone data) <= 15) /\
     (2 <= length (location data) <= 100) /\
     confirmPassword data = password data).
  { unfold schema_ok, name_ok, email_ok, password_ok, phone_ok, location_ok, min, max.
    rewrite !andb_true_iff, !Nat.leb_le, bool_decide_eq_true. intuition congruence. }
  split; [done |]. intros Hok. pose proof Hok as Hall. apply Hiff in Hall.
  destruct Hall as (_ & _ & [Hlen Hpattern] & _ & _ & Hconfirm). rewrite Hconfirm.
  split.
  - unfold password_ok, min, max. rewrite Hpattern.
    rewrite !andb_true_iff, !Nat.leb_le. lia.
  - rewrite (proj1 (password_pattern_first_line (password data))) in Hpattern.
    rewrite !andb_true_iff in Hpattern. tauto.
Qed.

End RegisterFormFacts.

(** ** Errors and loading *)



Section NoListener.

Variable idp : string -> string -> thrown + FirebaseUser.

Lemma no_listener_park o slot w p m :
  is_listener o = false -> no_listener m -> no_listener (park o slot w p m).
Proof.
  intros Ho [Hpending Hfinished].
  assert (Hrest : Forall (fun entry => is_listener (fst entry) = false)
                    (from_option (fun i => delete i (pending m)) (pending m) slot)).
  { destruct slot as [i|]; [by apply Forall_delete | done]. }
  destruct p as [a|e|X eff k]; unfold park; split; cbn [pending finished]; try done.
  - apply Forall_app. split; [done |]. by constructor.
  - apply Forall_app. split; [done |]. by constructor.
  - destruct slot as [i|].
    + by apply Forall_insert.
    + apply Forall_app. split; [done |]. by constructor.
Qed.

Lemma no_listener_step m l :
  is_provider_event l = false -> no_listener m -> no_listener (step idp m l).
Proof.
  intros Hl Hm. destruct l as [change|email password| |task failure|key data|now];
    cbn [step]; try done.
  - unfold spawn. destruct (advance idp (login email password) (state m)).
    by apply no_listener_park.
  - unfold spawn. destruct (advance idp logout (state m)). by apply no_listener_park.
  - unfold settle. destruct (pending m !! task) as [[o p]|] eqn:Htask; [| done].
    destruct p as [a|e|X eff k]; [done | done |].
    destruct (perform idp eff (state m) failure) as [w1 r].
    destruct (advance idp (k r) w1) as [w p']. apply no_listener_park; [| done].
    destruct Hm as [Hpending _]. rewrite Forall_lookup in Hpending.
    apply (Hpending task (o, Do eff k) Htask).
Qed.

Lemma no_listener_run m ls :
  Forall (fun l => is_provider_event l = false) ls -> no_listener m ->
  no_listener (run idp m ls).
Proof.
  revert m. induction ls as [|l ls IH]; intros m Hls Hm; [done |].
  apply Forall_cons in Hls as [Hl Hls]. apply IH; [done |]. by apply no_listener_step.
Qed.

Lemma no_listener_resolved m : no_listener m -> resolved m = false.
Proof.
  intros [_ Hfinished]. unfold resolved.
  induction Hfinished as [|entry fin Hentry _ IH]; [done |]. cbn. by rewrite Hentry.
Qed.

End NoListener.

(** X12.  As long as the provider has
    delivered no event, [isLoading] stays true, whatever calls of [login] and
    [logout] are made and however they end: a [login] that succeeds publishes
    its user and leaves the application loading. *)
Theorem loading_ends_only_with_provider_event idp store now ls :
  Forall (fun l => is_provider_event l = false) ls ->
  isLoading (state (run idp (boot store now) ls)) = true.
Proof.
  intros Hls.
  rewrite (inv_loading _ (loop_inv_run idp _ ls (loop_inv_boot store now))).
  rewrite no_listener_resolved; [done |].
  apply no_listener_run; [done |]. by split.
Qed.

Lemma loading_ends_only_with_provider_event_witness :
  let ls := [CallLogin "new@x.com" "Secret123"; Settle 0 None; Settle 0 None] in
  let m := run Sample.provider (boot Sample.store Sample.now) ls in
  Forall (fun l => is_provider_event l = false) ls /\
  isAuthenticated (value (state m)) = true /\ isLoading (state m) = true.
Proof.
  intros ls m.
  assert (Hls : Forall (fun l => is_provider_event l = false) ls) by by repeat constructor.
  split; [done |]. split; [reflexivity |].
  by apply (loading_ends_only_with_provider_event Sample.provider Sample.store Sample.now ls).
Defined.

(** ** Samples for the users page and the registration form *)

Lemma handleCreateUser_appends_witness :
  exists st,
    UsersPage.handleCreateUser UsersPage.sample_encode UsersPage.sample_formData
      "1710504000000" Sample.now UsersPage.initial = inr st /\
    length (UsersPage.users st) = 3 /\
    ((UsersPage.users st !! 2) ≫= lookup "status") = Some (VStr "ativo") /\
    ((UsersPage.users st !! 2) ≫= lookup "id") = Some (VStr "1710504000000") /\
    ((UsersPage.users st !! 2) ≫= lookup "role") = Some (VStr "usuario").
Proof.
  pose proof (handleCreateUser_appends UsersPage.sample_encode UsersPage.sample_formData
                "1710504000000" Sample.now UsersPage.initial) as Hcreate.
  cbn [UsersPage.sample_encode] in Hcreate.
  change (UsersPage.sample_formData !! "name") with (Some (VStr "Ana")) in Hcreate.
  cbn iota in Hcreate.
  destruct Hcreate as (u & -> & _ & Hstatus & _ & Hid & Hother).
  eexists. split; [reflexivity |]. cbn [UsersPage.users UsersPage.initial].
  split; [reflexivity |].
  change ((UsersPage.mockUsers ++ [u])%list !! 2) with (Some u). cbn [mbind option_bind].
  split; [done |]. split; [by rewrite Hid |].
  rewrite Hother; [reflexivity |].
  rewrite !not_elem_of_cons. repeat split; try done. apply not_elem_of_nil.
Defined.

Lemma users_are_never_edited_witness :
  let maria := list_to_map [("id", VStr "2"); ("name", VStr "Maria Santos")] : JsObject in
  UsersPage.sample_encode (UsersPage.sample_formData !! "name") = inr "Ana" /\
  UsersPage.users
    (UsersPage.acts UsersPage.sample_encode UsersPage.initial
       [UsersPage.Edit maria;
        UsersPage.Submit UsersPage.sample_formData "1710504000000" Sample.now])
  = (UsersPage.mockUsers
     ++ [UsersPage.newUser UsersPage.sample_formData "1710504000000" Sample.now "Ana"])%list.
Proof.
  intros maria. split; [reflexivity |].
  apply (proj2 (proj2 (users_are_never_edited UsersPage.sample_encode UsersPage.initial []))).
  reflexivity.
Defined.

Lemma delete_undoes_create_witness :
  let u := UsersPage.newUser UsersPage.sample_formData "1710504000000" Sample.now "Ana" in
  UsersPage.sample_encode (UsersPage.sample_formData !! "name") = inr "Ana" /\
  (forall earlier, earlier ∈ UsersPage.mockUsers -> earlier !! "id" <> u !! "id") /\
  exists st1,
    UsersPage.handleCreateUser UsersPage.sample_encode UsersPage.sample_formData
      "1710504000000" Sample.now UsersPage.initial = inr st1 /\
    UsersPage.users (UsersPage.handleDeleteUser (u !! "id") true st1) = UsersPage.mockUsers.
Proof.
  intros u.
  assert (Hfresh : forall earlier,
             earlier ∈ UsersPage.mockUsers -> earlier !! "id" <> u !! "id").
  { intros earlier Hearlier. unfold UsersPage.mockUsers in Hearlier.
    rewrite !elem_of_cons, elem_of_nil in Hearlier.
    destruct Hearlier as [-> | [-> | []]]; discriminate. }
  split; [reflexivity |]. split; [done |].
  apply (delete_undoes_create UsersPage.sample_encode UsersPage.sample_formData
           "1710504000000" Sample.now "Ana" UsersPage.initial eq_refl Hfresh).
Defined.

(** Name [Ana], address [a@x.co], password and confirmation [Abcdefg1], phone
    [1199999999], location [SP]. *)
Lemma schema_ok_accepts_witness :
  let data :=
    {| RegisterForm.name := [65; 110; 97];
       RegisterForm.email := [97; 64; 120; 46; 99; 111];
       RegisterForm.password := [65; 98; 99; 100; 101; 102; 103; 49];
       RegisterForm.confirmPassword := [65; 98; 99; 100; 101; 102; 103; 49];
       RegisterForm.phone := [49; 49; 57; 57; 57; 57; 57; 57; 57; 57];
       RegisterForm.location := [83; 80] |}%N in
  RegisterForm.schema_ok (fun _ => true) data = true /\
  RegisterForm.password_ok (RegisterForm.confirmPassword data) = true.
Proof.
  intros data. split; [reflexivity |].
  apply (proj2 (schema_ok_accepts (fun _ => true) data)). reflexivity.
Defined.
